(** * Resource planner: a shallow embedding of [rp.py] and its properties

    The planner assigns calendar working days to prioritised projects.
    The embedding follows the three functions of [rp.py]:
    [validate_priorities], [calculate_working_days] and
    [assign_project_dates].

    - A date (a [datetime] at midnight) is its proleptic Gregorian ordinal,
      an integer; [datetime.weekday()] is [(ordinal + 6) mod 7], Monday = 0.
      2024-01-01, a Monday, is ordinal 738886.
    - A Python [int] is a [Z]; a Python [float] is a binary64 number, kept
      as mantissa and exponent and rounded to nearest, ties to even.
    - A raised exception is the [Raise] case of [result]. [datetime] holds
      the ordinals 1 (0001-01-01) to 3652059 (9999-12-31); adding a day to
      the last one raises [OverflowError].
    - The [assigned_dates] dictionary is a [gmap] from dates to names. *)

From Stdlib Require Import ZArith QArith Qround Qabs Qpower Lia Lqa.
From Stdlib Require Import Floats.SpecFloat.
From stdpp Require Import gmap strings list fin_maps sorting.

Close Scope Q_scope.
Open Scope Z_scope.

(** ** Exceptions *)

Inductive exn : Type :=
| ValueError (priorities : list Z) (count : nat)
| KeyError (key : string)
| ZeroDivisionError
| IndexError
| OverflowError.

Inductive result (A : Type) : Type :=
| Ok (a : A)
| Raise (e : exn).
Arguments Ok {A} a.
Arguments Raise {A} e.

#[global] Instance result_ret : MRet result := @Ok.
#[global] Instance result_bind : MBind result :=
  λ A B f m, match m with Ok a => f a | Raise e => Raise e end.

(** A list comprehension whose body can raise: the first exception wins. *)
Fixpoint comprehension {A B : Type} (f : A → result B) (l : list A)
  : result (list B) :=
  match l with
  | [] => Ok []
  | a :: l' => b ← f a; bs ← comprehension f l'; Ok (b :: bs)
  end.

(** ** Binary64 arithmetic

    [len(working_days) / required_days], [i * interval] and [round] are
    computed on Python floats. A finite float is [Fnum * 2 ^ Fexp]. *)

Module PyFloat.

Record float : Type := Float { Fnum : Z; Fexp : Z }.

Definition F2Q (f : float) : Q := (inject_Z (Fnum f) * 2 ^ Fexp f)%Q.

(** Nearest integer, ties to the even one. *)
Definition Qrne (x : Q) : Z :=
  let f := Qfloor x in
  match (x - inject_Z f ?= 1 # 2)%Q with
  | Lt => f
  | Gt => f + 1
  | Eq => if Z.even f then f else f + 1
  end.

(** [floor (log2 x)] of a positive rational. *)
Definition Qlog2 (x : Q) : Z :=
  let k := Z.log2 (Qnum x) - Z.log2 (Z.pos (Qden x)) in
  if Qle_bool (2 ^ k) x then k else k - 1.

Definition prec : Z := 53.
Definition emin : Z := -1074.

(** Round a rational to the nearest float with a 53 bit mantissa (ties to
    even), with gradual underflow. Overflow to infinity is not modelled:
    the operands here are list lengths and indices. *)
Definition round_float (x : Q) : float :=
  if Qeq_bool x 0 then Float 0 0
  else
    let e := Z.max (Qlog2 (Qabs x) - (prec - 1)) emin in
    Float (Z.sgn (Qnum x) * Qrne (Qabs x / 2 ^ e)) e.

(** [float(i)]: an integer below [2 ^ 53] in magnitude is a float. *)
Definition float_of_Z (i : Z) : float :=
  if Z.abs i <? 2 ^ prec then Float i 0 else round_float (inject_Z i).

Definition fmul (a b : float) : float := round_float (F2Q a * F2Q b).

(** [a / b] on two Python ints: the correctly rounded quotient. *)
Definition py_truediv (a b : Z) : result float :=
  if b =? 0 then Raise ZeroDivisionError
  else Ok (round_float (inject_Z a / inject_Z b)).

(** [int(round(x))]: [round] of a float is the nearest [int], ties to even. *)
Definition py_round (x : float) : Z := Qrne (F2Q x).

(** The same values in the Standard Library's IEEE 754 specification. *)
Definition to_spec (f : float) : spec_float :=
  match Fnum f with
  | 0 => S754_zero false
  | Z.pos m => S754_finite false m (Fexp f)
  | Z.neg m => S754_finite true m (Fexp f)
  end.

Definition SFint (i : positive) : spec_float := S754_finite false i 0.

(** [i * (n / r)] computed by the Standard Library's operations. *)
Definition spec_product (n r i : positive) : spec_float :=
  SFmul 53 1024 (SFint i) (SFdiv 53 1024 (SFint n) (SFint r)).

Definition agrees_with_spec (x : positive * positive * positive) : bool :=
  let '(n, r, i) := x in
  match py_truediv (Z.pos n) (Z.pos r) with
  | Ok interval =>
      SFeqb (to_spec (fmul (float_of_Z (Z.pos i)) interval))
            (spec_product n r i)
  | Raise _ => false
  end.

End PyFloat.
Import PyFloat.

(** ** Python list operations *)

Definition len {A : Type} (l : list A) : Z := Z.of_nat (length l).

(** [l[:stop]]: a negative [stop] counts from the end, and the bound is
    clipped to [0 .. len l]. *)
Definition py_slice_stop {A : Type} (l : list A) (stop : Z) : list A :=
  let stop' := if stop <? 0 then Z.max (stop + len l) 0
               else Z.min stop (len l) in
  take (Z.to_nat stop') l.

(** [l[i]]: a negative [i] counts from the end; out of range raises. *)
Definition py_index {A : Type} (l : list A) (i : Z) : result A :=
  let j := if i <? 0 then i + len l else i in
  if (0 <=? j) && (j <? len l) then
    match l !! Z.to_nat j with
    | Some x => Ok x
    | None => Raise IndexError
    end
  else Raise IndexError.

(** ** Data *)

(** A date is its ordinal. *)
Abbreviation date := Z (only parsing).

Definition weekday (d : date) : Z := (d + 6) mod 7.

(** The last ordinal of [datetime], 9999-12-31. *)
Definition datetime_max_ordinal : Z := 3652059.

(** [d + timedelta(days=1)]: a result outside [datetime] raises. *)
Definition date_add_day (d : date) : result date :=
  if (1 <=? d + 1) && (d + 1 <=? datetime_max_ordinal) then Ok (d + 1)
  else Raise OverflowError.

Record project : Type := Project {
  name : string;
  priority : option Z;
  start_date : date;
  end_date : date;
  required_days : Z
}.

Record settings : Type := Settings {
  working_days_per_week : option Z;
  spread_days_evenly : option bool
}.

Record config : Type := Config {
  projects : list project;
  holidays : list date;
  cfg_settings : settings
}.

Record shortfall : Type := Shortfall {
  sf_name : string;
  assigned_days : Z;
  sf_required_days : Z
}.

(** ** [validate_priorities] *)

Definition validate_priorities (projects : list project) : result bool :=
  let priorities :=
    merge_sort Z.le (map (λ p, default 0 (priority p)) projects) in
  let expected_priorities := seqZ 1 (len projects) in
  if decide (priorities = expected_priorities) then Ok true
  else Raise (ValueError priorities (length projects)).

(** ** [calculate_working_days] *)

(** The [while current <= end] loop: [remaining] is the number of dates
    from [current] to [end]; the state is [current] and [working_days].
    Each iteration ends with [current += timedelta(days=1)], which raises
    after the last date of [datetime]. *)
Fixpoint collect_loop (remaining : nat) (current : date)
    (allowed_weekdays : list Z) (holidays2 : gset date)
    (working_days : list date) : result (list date) :=
  match remaining with
  | O => Ok working_days
  | S k =>
      let working_days :=
        if bool_decide (weekday current ∈ allowed_weekdays)
           && bool_decide (current ∉ holidays2)
        then working_days ++ [current]
        else working_days in
      current ← date_add_day current;
      collect_loop k current allowed_weekdays holidays2 working_days
  end.

Definition allowed_weekdays_of (working_days_per_week : Z) : list Z :=
  py_slice_stop (seqZ 0 5) working_days_per_week.

(** The indices of the even spread, [int(round(i * interval))]. *)
Definition spread_index (interval : float) (i : Z) : Z :=
  py_round (fmul (float_of_Z i) interval).

Definition spread_days (working_days : list date) (required_days : Z)
  : result (list date) :=
  interval ← py_truediv (len working_days) required_days;
  comprehension (λ i, py_index working_days (spread_index interval i))
    (seqZ 0 required_days).

Definition calculate_working_days (start end_ : date) (required_days : Z)
    (holidays : list date) (s : settings)
  : result (Z * bool * list date) :=
  let holidays2 : gset date := list_to_set holidays in
  let working_days_per_week := default 5 (working_days_per_week s) in
  let spread_days_evenly := default false (spread_days_evenly s) in
  let allowed_weekdays := allowed_weekdays_of working_days_per_week in
  working_days ←
    collect_loop (Z.to_nat (end_ - start + 1)) start allowed_weekdays
      holidays2 [];
  working_days ←
    (if spread_days_evenly && (required_days <? len working_days)
     then spread_days working_days required_days
     else Ok working_days);
  let is_sufficient := required_days <=? len working_days in
  Ok (len working_days, is_sufficient, working_days).

(** ** [assign_project_dates] *)

(** [sorted(projects, key=lambda p: p['priority'])]: the keys are read
    first (a missing key raises), then a stable sort by key. *)
Definition priority_key (p : project) : result (Z * project) :=
  match priority p with
  | Some k => Ok (k, p)
  | None => Raise (KeyError "priority")
  end.

Fixpoint insert_by_key (x : Z * project) (l : list (Z * project))
  : list (Z * project) :=
  match l with
  | [] => [x]
  | y :: l' =>
      if y.1 <=? x.1 then y :: insert_by_key x l' else x :: y :: l'
  end.

Definition sorted_by_priority (projects : list project)
  : result (list project) :=
  keyed ← comprehension priority_key projects;
  Ok (map snd (foldl (λ acc x, insert_by_key x acc) [] keyed)).

(** The inner [for day in working_days] loop with its [break]. *)
Fixpoint assign_days (working_days : list date) (name : string)
    (required_days : Z) (assigned_dates : gmap date string)
    (assigned_count : Z) : gmap date string * Z :=
  match working_days with
  | [] => (assigned_dates, assigned_count)
  | day :: rest =>
      if required_days <=? assigned_count then
        (assigned_dates, assigned_count)
      else if decide (assigned_dates !! day = None) then
        assign_days rest name required_days
          (<[day := name]> assigned_dates) (assigned_count + 1)
      else
        assign_days rest name required_days assigned_dates assigned_count
  end.

(** One iteration of [for project in projects]. *)
Definition process_project (holidays : list date) (s : settings)
    (st : gmap date string * list shortfall) (p : project)
  : result (gmap date string * list shortfall) :=
  r ← calculate_working_days (start_date p) (end_date p) (required_days p)
         holidays s;
  let working_days := r.2 in
  let '(assigned_dates, assigned_count) :=
    assign_days working_days (name p) (required_days p) st.1 0 in
  Ok (assigned_dates,
      if assigned_count <? required_days p
      then st.2 ++ [Shortfall (name p) assigned_count (required_days p)]
      else st.2).

Fixpoint project_loop (holidays : list date) (s : settings)
    (ps : list project) (st : gmap date string * list shortfall)
  : result (gmap date string * list shortfall) :=
  match ps with
  | [] => Ok st
  | p :: ps' =>
      st' ← process_project holidays s st p;
      project_loop holidays s ps' st'
  end.

Definition assign_project_dates (data : config)
  : result (gmap date string * list shortfall) :=
  _ ← validate_priorities (projects data);
  sorted ← sorted_by_priority (projects data);
  project_loop (holidays data) (cfg_settings data) sorted (∅, []).

(** ** Quantities used in the analysis of the even spread *)

(** Half a unit in the last place, relative: [2 ^ -53]. *)
Definition ulp_half : Q := 1 # 9007199254740992.

(** [datetime] has 3652059 dates (0001-01-01 to 9999-12-31), so no list of
    working days is longer. *)
Definition max_window_days : Z := 3652059.

(** The float [i * interval] before it is rounded to an index. *)
Definition spread_value (interval : float) (i : Z) : Q :=
  F2Q (fmul (float_of_Z i) interval).

(** A date that [datetime] can hold. *)
Definition valid_date (d : date) : Prop := 1 ≤ d ≤ max_window_days.

(** ** Names for intermediate values of the code *)

(** [working_days] as the [while] loop of [calculate_working_days] leaves
    it when it finishes, before the optional spread: the dates of the
    window with an allowed weekday that are no holiday. That the loop
    returns this list, or raises, is [collect_loop_eligible] and
    [collect_loop_overflow]. *)
Definition eligible_days (start end_ : date) (holidays : list date)
    (s : settings) : list date :=
  filter (λ d, weekday d ∈ allowed_weekdays_of
                               (default 5 (working_days_per_week s))
               ∧ d ∉ (list_to_set holidays : gset date))
    (seqZ start (end_ - start + 1)).

(** The windows on which the loop finishes: it never runs, or every
    increment stays within [datetime]. *)
Definition window_ok (start end_ : date) : Prop :=
  end_ < start ∨ (0 ≤ start ∧ end_ < datetime_max_ordinal).

(** What a run reports for a project: the gap of its shortfall record, and
    no gap when it has no record. *)
Definition shortfall_count (shortfalls : list shortfall) (nm : string) : Z :=
  match list_find (λ r, sf_name r = nm) shortfalls with
  | Some (_, r) => sf_required_days r - assigned_days r
  | None => 0
  end.

(** The eligible days of project [B] outside the window of project [A]:
    the days that [A] cannot claim before [B]. *)
Definition days_outside (A B : project) (holidays : list date)
    (s : settings) : list date :=
  filter (λ d, ¬ (start_date A ≤ d ≤ end_date A))
    (eligible_days (start_date B) (end_date B) holidays s).

(** The order of the keys that the sort establishes. *)
Definition key_le (a b : Z * project) : Prop := a.1 ≤ b.1.

(** ** Quantities used in the further properties *)

(** [assigned_dates[day] = name] for each day of a list, in order. *)
Definition claim_all (nm : string) (ds : list Z) (led : gmap Z string)
  : gmap Z string :=
  foldl (λ m d, <[d := nm]> m) led ds.

Definition sumZ (l : list Z) : Z := foldr Z.add 0 l.

(** The gap of a shortfall record. *)
Definition shortfall_gap (r : shortfall) : Z :=
  sf_required_days r - assigned_days r.

(** The number of dates that the ledger gives to a name. *)
Definition dates_of (nm : string) (led : gmap Z string) : Z :=
  Z.of_nat (size (filter (λ kv, kv.2 = nm) led)).

(** ** The specification's wording *)

Definition clamp (x lo hi : Z) : Z := Z.max lo (Z.min x hi).

(** The first [k] weekdays of a Monday-first week. *)
Definition first_weekdays (k : Z) : list Z := seqZ 0 k.

(** The dates of [start .. end_] whose weekday is among the first
    [w] weekdays of Monday to Friday and that are no holiday, in
    chronological order. *)
Definition spec_eligible (start end_ : date) (w : Z) (holidays : list date)
  : list date :=
  filter (λ d, weekday d < Z.min w 5 ∧ d ∉ holidays)
    (seqZ start (end_ - start + 1)).

(** * Properties *)

(** ** Rounding *)

(** The rounding above and the Standard Library's [SFdiv] and [SFmul] give
    the same floats on sample lengths, counts and indices. *)
Example float_agrees :
  forallb agrees_with_spec
    [(5, 3, 2); (10, 4, 3); (20, 19, 18); (9, 3, 1); (1000, 3, 2);
     (261, 260, 259); (3652059, 7, 6); (3652059, 3652058, 3652057);
     (2608614, 1304306, 1304305); (7, 2, 1); (11, 10, 5)]%positive = true.
Proof. vm_compute. reflexivity. Qed.

(** The indices of 3 days out of 5 and of 4 out of 10, as Python gives
    them. *)
Example spread_5_3 :
  spread_index (round_float (5 # 3)) <$> seqZ 0 3 = [0; 2; 3].
Proof. vm_compute. reflexivity. Qed.

Example spread_10_4 :
  spread_index (round_float (10 # 4)) <$> seqZ 0 4 = [0; 2; 5; 8].
Proof. vm_compute. reflexivity. Qed.

Lemma Qrne_bounds (x : Q) :
  (x - (1 # 2) <= inject_Z (Qrne x))%Q ∧ (inject_Z (Qrne x) <= x + (1 # 2))%Q.
Proof.
  unfold Qrne.
  pose proof (Qfloor_le x) as Hlo. pose proof (Qlt_floor x) as Hhi.
  rewrite inject_Z_plus in Hhi. change (inject_Z 1) with 1%Q in Hhi.
  destruct (x - inject_Z (Qfloor x) ?= 1 # 2)%Q eqn:Hc.
  - apply Qeq_alt in Hc.
    destruct (Z.even (Qfloor x));
      [|rewrite inject_Z_plus; change (inject_Z 1) with 1%Q]; lra.
  - apply Qlt_alt in Hc. lra.
  - apply Qgt_alt in Hc. rewrite inject_Z_plus.
    change (inject_Z 1) with 1%Q. lra.
Qed.

Lemma Qrne_nonneg (x : Q) : (0 <= x)%Q → 0 ≤ Qrne x.
Proof.
  intros Hx. unfold Qrne.
  assert (0 ≤ Qfloor x) by (change 0 with (Qfloor 0); by apply Qfloor_resp_le).
  repeat case_match; lia.
Qed.

Lemma pow2_pos (e : Z) : (0 < 2 ^ e)%Q.
Proof. by apply Qpower_0_lt. Qed.

Lemma pow2_inject (n : Z) : 0 ≤ n → (inject_Z (2 ^ n) == 2 ^ n)%Q.
Proof. intros. by rewrite Zpower_Qpower. Qed.

Lemma Z_le_pow2_log2 (a : Z) : 0 < a → 2 ^ Z.log2 a ≤ a < 2 ^ (Z.log2 a + 1).
Proof. intros. replace (Z.log2 a + 1) with (Z.succ (Z.log2 a)) by lia. by apply Z.log2_spec. Qed.

Lemma Qlog2_lower (x : Q) : (0 < x)%Q → (2 ^ Qlog2 x <= x)%Q.
Proof.
  intros Hx. unfold Qlog2.
  set (k := Z.log2 (Qnum x) - Z.log2 (Z.pos (Qden x))).
  destruct (Qle_bool (2 ^ k) x) eqn:Hb.
  - by apply Qle_bool_iff.
  - clear Hb. destruct x as [a b]. cbn [Qnum Qden] in k.
    assert (Ha : 0 < a) by (unfold Qlt in Hx; simpl in Hx; lia).
    pose proof (Z_le_pow2_log2 a Ha) as [Ha1 _].
    pose proof (Z_le_pow2_log2 (Z.pos b) ltac:(lia)) as [_ Hb2].
    pose proof (Z.log2_nonneg a). pose proof (Z.log2_nonneg (Z.pos b)).
    replace (k - 1) with (Z.log2 a - (Z.log2 (Z.pos b) + 1)). 2:{ unfold k; lia. }
    rewrite Qpower_minus by done.
    rewrite <- !pow2_inject by lia.
    rewrite (Qmake_Qdiv a b).
    assert (0 < 2 ^ (Z.log2 (Z.pos b) + 1)) by (apply Z.pow_pos_nonneg; lia).
    apply Qle_shift_div_r. { rewrite <- (Zlt_Qlt 0). lia. }
    setoid_replace (inject_Z a / inject_Z (Z.pos b)
                    * inject_Z (2 ^ (Z.log2 (Z.pos b) + 1)))%Q
      with (inject_Z a * inject_Z (2 ^ (Z.log2 (Z.pos b) + 1))
            / inject_Z (Z.pos b))%Q using relation Qeq by (field; discriminate).
    apply Qle_shift_div_l. { rewrite <- (Zlt_Qlt 0). lia. }
    rewrite <- !inject_Z_mult, <- Zle_Qle. nia.
Qed.

Lemma Qlog2_nonneg (x : Q) : (1 <= x)%Q → 0 ≤ Qlog2 x.
Proof.
  intros Hx. unfold Qlog2.
  destruct x as [a b]. cbn [Qnum Qden].
  assert (Hab : Z.pos b ≤ a) by (unfold Qle in Hx; simpl in Hx; lia).
  pose proof (Z.log2_le_mono _ _ Hab) as Hk.
  destruct (Qle_bool _ _) eqn:Hb; [lia|].
  assert (Z.log2 a - Z.log2 (Z.pos b) ≠ 0); [|lia].
  intros Hz. rewrite Hz in Hb.
  assert (Qle_bool (2 ^ 0) (a # b) = true); [|congruence].
  apply Qle_bool_iff. apply Hx.
Qed.

Lemma round_float_zero (x : Q) : (x == 0)%Q → (F2Q (round_float x) == 0)%Q.
Proof.
  intros Hx. unfold round_float.
  apply Qeq_bool_iff in Hx. rewrite Hx. reflexivity.
Qed.

Lemma round_float_error (x : Q) :
  (1 <= x)%Q →
  (x * (1 - ulp_half) <= F2Q (round_float x))%Q
  ∧ (F2Q (round_float x) <= x * (1 + ulp_half))%Q.
Proof.
  intros Hx. unfold round_float.
  destruct (Qeq_bool x 0) eqn:Hz.
  { apply Qeq_bool_iff in Hz. lra. }
  clear Hz.
  assert (Habs : (Qabs x == x)%Q) by (apply Qabs_pos; lra).
  assert (Hsgn : Z.sgn (Qnum x) = 1).
  { destruct x as [a b]. unfold Qle in Hx. simpl in Hx. simpl. lia. }
  rewrite Hsgn, Z.mul_1_l.
  pose proof (Qlog2_nonneg x Hx) as Hl.
  pose proof (Qlog2_lower x ltac:(lra)) as Hlow.
  assert (HL : Qlog2 (Qabs x) = Qlog2 x).
  { unfold Qabs. destruct x as [a b]. 
    unfold Qle in Hx. simpl in Hx. destruct a; simpl; try lia; done. }
  rewrite HL.
  rewrite Z.max_l by (unfold prec, emin; lia).
  set (e := Qlog2 x - (prec - 1)).
  unfold F2Q. cbn [Fnum Fexp].
  pose proof (pow2_pos e) as He.
  pose proof (Qrne_bounds (Qabs x / 2 ^ e)) as [Hr1 Hr2].
  assert (Hy : (Qabs x / 2 ^ e * 2 ^ e == x)%Q).
  { rewrite Habs. field. lra. }
  assert (Hp : (2 ^ e * inject_Z (2 ^ 52) == 2 ^ Qlog2 x)%Q).
  { rewrite pow2_inject by lia. rewrite <- Qpower_plus by done.
    unfold e, prec. by replace (Qlog2 x - (53 - 1) + 52) with (Qlog2 x) by lia. }
  set (y := (Qabs x / 2 ^ e)%Q) in *.
  set (m := inject_Z (Qrne y)) in *.
  set (p := (2 ^ e)%Q) in *.
  assert (H1 : ((y - (1 # 2)) * p <= m * p)%Q) by (apply Qmult_le_compat_r; lra).
  assert (H2 : (m * p <= (y + (1 # 2)) * p)%Q) by (apply Qmult_le_compat_r; lra).
  unfold ulp_half.
  change (inject_Z (2 ^ 52)) with (4503599627370496 # 1)%Q in Hp.
  lra.
Qed.

Section SpreadIndices.
Variables n r : Z.
Hypothesis Hr : 1 ≤ r.
Hypothesis Hrn : r < n.
Hypothesis Hn : n ≤ max_window_days.

Let interval : float := round_float (inject_Z n / inject_Z r).
Let q : Q := F2Q interval.
Let t : Q := (inject_Z n / inject_Z r)%Q.

Lemma ratio_mult : (t * inject_Z r == inject_Z n)%Q.
Proof.
  unfold t. field.
  intros Hz. assert (0 < inject_Z r)%Q by (rewrite <- (Zlt_Qlt 0); lia). lra.
Qed.

Lemma ratio_lower : (1 + (1 # 4194304) <= t)%Q.
Proof.
  unfold t. apply Qle_shift_div_l. { rewrite <- (Zlt_Qlt 0). lia. }
  assert (inject_Z r + 1 <= inject_Z n)%Q.
  { change 1%Q with (inject_Z 1). rewrite <- inject_Z_plus, <- Zle_Qle. lia. }
  assert (inject_Z r <= 4194304)%Q.
  { change 4194304%Q with (inject_Z 4194304). rewrite <- Zle_Qle.
    unfold max_window_days in Hn. lia. }
  lra.
Qed.

Lemma interval_bounds :
  (t * (1 - ulp_half) <= q)%Q ∧ (q <= t * (1 + ulp_half))%Q.
Proof.
  unfold q, interval. apply round_float_error.
  pose proof ratio_lower. unfold t in *. lra.
Qed.

Lemma interval_lower : (1 + (1 # 8388608) <= q)%Q.
Proof.
  pose proof interval_bounds as [H _]. pose proof ratio_lower.
  unfold ulp_half in H. lra.
Qed.

Lemma spread_value_bounds (i : Z) :
  0 ≤ i < r →
  (inject_Z i * q * (1 - ulp_half) <= spread_value interval i)%Q
  ∧ (spread_value interval i <= inject_Z i * q * (1 + ulp_half))%Q.
Proof.
  intros Hi. unfold spread_value, fmul, float_of_Z.
  assert ((Z.abs i <? 2 ^ prec) = true) as ->.
  { apply Z.ltb_lt. unfold max_window_days, prec in *. lia. }
  assert (Hv : (F2Q (Float i 0) == inject_Z i)%Q).
  { unfold F2Q. cbn [Fnum Fexp]. change (2 ^ 0)%Q with 1%Q. ring. }
  fold q.
  destruct (decide (i = 0)) as [->|Hnz].
  - assert (Hz : (F2Q (Float 0 0) * q == 0)%Q) by (rewrite Hv; ring).
    rewrite (round_float_zero _ Hz). change (inject_Z 0) with 0%Q. lra.
  - pose proof interval_lower.
    assert (1 <= inject_Z i)%Q.
    { change 1%Q with (inject_Z 1). rewrite <- Zle_Qle. lia. }
    assert (Hvq : (F2Q (Float i 0) * q == inject_Z i * q)%Q)
      by (rewrite Hv; reflexivity).
    assert (Hone : (1 <= F2Q (Float i 0) * q)%Q) by nra.
    pose proof (round_float_error _ Hone) as [H1 H2].
    unfold ulp_half in *. split; lra.
Qed.

Lemma product_upper (i : Z) :
  0 ≤ i < r →
  (inject_Z i * q <= (inject_Z n - 1 - (1 # 4194304)) * (1 + ulp_half))%Q.
Proof.
  intros Hi.
  pose proof interval_bounds as [_ Hq]. pose proof interval_lower.
  pose proof ratio_lower. pose proof ratio_mult as Hm.
  assert (Hi0 : (0 <= inject_Z i)%Q).
  { change 0%Q with (inject_Z 0). rewrite <- Zle_Qle. lia. }
  assert (Hir : (inject_Z i + 1 <= inject_Z r)%Q).
  { change 1%Q with (inject_Z 1). rewrite <- inject_Z_plus, <- Zle_Qle. lia. }
  assert (H1 : (inject_Z i * q <= inject_Z i * (t * (1 + ulp_half)))%Q).
  { unfold ulp_half in *. nra. }
  assert (H2 : (inject_Z i * (t * (1 + ulp_half))
                <= (inject_Z r - 1) * (t * (1 + ulp_half)))%Q).
  { apply Qmult_le_compat_r; [lra|]. unfold ulp_half. nra. }
  unfold ulp_half in *. nra.
Qed.

Lemma spread_index_value (i : Z) :
  spread_index interval i = Qrne (spread_value interval i).
Proof. reflexivity. Qed.

Lemma spread_index_nonneg (i : Z) :
  0 ≤ i < r → 0 ≤ spread_index interval i.
Proof.
  intros Hi. rewrite spread_index_value. apply Qrne_nonneg.
  pose proof (spread_value_bounds i Hi) as [Hlo _].
  pose proof interval_lower.
  assert (Hi0 : (0 <= inject_Z i)%Q).
  { change 0%Q with (inject_Z 0). rewrite <- Zle_Qle. lia. }
  unfold ulp_half in *. nra.
Qed.

Lemma spread_index_upper (i : Z) :
  0 ≤ i < r → spread_index interval i < n.
Proof.
  intros Hi. rewrite spread_index_value.
  pose proof (spread_value_bounds i Hi) as [_ Hhi].
  pose proof (product_upper i Hi) as Hp.
  pose proof (Qrne_bounds (spread_value interval i)) as [_ Hr2].
  assert (Hn' : (inject_Z n <= 4194304)%Q).
  { change 4194304%Q with (inject_Z 4194304). rewrite <- Zle_Qle.
    unfold max_window_days in Hn. lia. }
  rewrite Zlt_Qlt. unfold ulp_half in *. lra.
Qed.

Lemma spread_index_step (i : Z) :
  0 ≤ i → i + 1 < r →
  spread_index interval i < spread_index interval (i + 1).
Proof.
  intros Hi0 Hi1. rewrite !spread_index_value.
  pose proof (spread_value_bounds i ltac:(lia)) as [_ Hhi].
  pose proof (spread_value_bounds (i + 1) ltac:(lia)) as [Hlo _].
  pose proof (product_upper i ltac:(lia)) as Hp.
  pose proof interval_lower as Hq.
  pose proof (Qrne_bounds (spread_value interval i)) as [_ Hr2].
  pose proof (Qrne_bounds (spread_value interval (i + 1))) as [Hr1 _].
  assert (Hn' : (inject_Z n <= 4194304)%Q).
  { change 4194304%Q with (inject_Z 4194304). rewrite <- Zle_Qle.
    unfold max_window_days in Hn. lia. }
  rewrite inject_Z_plus in Hlo. change (inject_Z 1) with 1%Q in Hlo.
  rewrite Zlt_Qlt. unfold ulp_half in *. lra.
Qed.
End SpreadIndices.

(** ** The eligible days of a window *)

Lemma weekday_range (d : date) : 0 ≤ weekday d < 7.
Proof. unfold weekday. apply Z.mod_pos_bound. lia. Qed.

Lemma allowed_weekdays_of_eq (w : Z) :
  allowed_weekdays_of w
  = first_weekdays (if w <? 0 then Z.max (w + 5) 0 else Z.min w 5).
Proof.
  unfold allowed_weekdays_of, py_slice_stop, first_weekdays.
  change (len (seqZ 0 5)) with 5.
  set (c := if w <? 0 then Z.max (w + 5) 0 else Z.min w 5).
  assert (Hc : c = 0 ∨ c = 1 ∨ c = 2 ∨ c = 3 ∨ c = 4 ∨ c = 5).
  { unfold c. destruct (Z.ltb_spec w 0); lia. }
  destruct Hc as [->|[->|[->|[->|[->| ->]]]]]; reflexivity.
Qed.

Lemma elem_of_first_weekdays (k x : Z) : x ∈ first_weekdays k ↔ 0 ≤ x < k.
Proof. unfold first_weekdays. rewrite elem_of_seqZ. lia. Qed.

Lemma date_add_day_Ok (d : date) :
  0 ≤ d → d + 1 ≤ datetime_max_ordinal → date_add_day d = Ok (d + 1).
Proof.
  intros H1 H2. unfold date_add_day.
  destruct (Z.leb_spec 1 (d + 1)); [|lia].
  destruct (Z.leb_spec (d + 1) datetime_max_ordinal); [done|lia].
Qed.

Lemma date_add_day_Raise (d : date) :
  d < 0 ∨ datetime_max_ordinal < d + 1 → date_add_day d = Raise OverflowError.
Proof.
  intros H. unfold date_add_day.
  destruct (Z.leb_spec 1 (d + 1)); [|done].
  destruct (Z.leb_spec (d + 1) datetime_max_ordinal); [lia|done].
Qed.

Lemma collect_loop_Ok (n : nat) (current : date) (allowed : list Z)
    (hol : gset date) (acc : list date) :
  n = 0%nat ∨ (0 ≤ current ∧ current + Z.of_nat n ≤ datetime_max_ordinal) →
  collect_loop n current allowed hol acc
  = Ok (acc ++ filter (λ d, weekday d ∈ allowed ∧ d ∉ hol)
                 (seqZ current (Z.of_nat n))).
Proof.
  revert current acc. induction n as [|n IH]; intros current acc Hn.
  - simpl. by rewrite seqZ_nil, app_nil_r.
  - destruct Hn as [|[H0 Hmax]]; [done|].
    cbn [collect_loop]. rewrite date_add_day_Ok by lia.
    cbn [mbind result_bind]. rewrite IH by lia.
    rewrite (seqZ_cons current) by lia.
    replace (Z.pred (Z.of_nat (S n))) with (Z.of_nat n) by lia.
    replace (Z.succ current) with (current + 1) by lia.
    rewrite filter_cons.
    destruct (decide (weekday current ∈ allowed ∧ current ∉ hol)) as [[H1 H2]|Hno].
    + rewrite !bool_decide_eq_true_2 by done. simpl. by rewrite <- app_assoc.
    + destruct (bool_decide (weekday current ∈ allowed)) eqn:E1;
        destruct (bool_decide (current ∉ hol)) eqn:E2; simpl; try done.
      apply bool_decide_eq_true_1 in E1, E2. tauto.
Qed.

Lemma collect_loop_Raise (n : nat) (current : date) (allowed : list Z)
    (hol : gset date) (acc : list date) :
  n ≠ 0%nat →
  current < 0 ∨ datetime_max_ordinal < current + Z.of_nat n →
  collect_loop n current allowed hol acc = Raise OverflowError.
Proof.
  revert current acc. induction n as [|n IH]; intros current acc Hn Hout; [done|].
  cbn [collect_loop].
  destruct (decide (current < 0 ∨ datetime_max_ordinal < current + 1)) as [Hd|Hd].
  - by rewrite date_add_day_Raise.
  - rewrite date_add_day_Ok by lia. cbn [mbind result_bind].
    apply IH; [|lia]. intros ->. simpl in Hout. lia.
Qed.

Lemma eligible_days_filter (start end_ : date) (hol : list date) (s : settings) :
  eligible_days start end_ hol s
  = filter (λ d, weekday d ∈ allowed_weekdays_of (default 5 (working_days_per_week s))
                 ∧ d ∉ (list_to_set hol : gset date))
      (seqZ start (end_ - start + 1)).
Proof. reflexivity. Qed.

(** On a window that stays within [datetime] the loop collects the
    eligible days; on any other window it raises. *)
Lemma collect_loop_eligible (start end_ : date) (hol : list date) (s : settings) :
  window_ok start end_ →
  collect_loop (Z.to_nat (end_ - start + 1)) start
    (allowed_weekdays_of (default 5 (working_days_per_week s)))
    (list_to_set hol) []
  = Ok (eligible_days start end_ hol s).
Proof.
  unfold window_ok. intros Hw. rewrite collect_loop_Ok by lia.
  rewrite app_nil_l, eligible_days_filter.
  destruct (decide (0 ≤ end_ - start + 1)).
  - by rewrite Z2Nat.id.
  - rewrite Z2Nat.nonpos by lia. by rewrite !seqZ_nil by lia.
Qed.

Lemma collect_loop_overflow (start end_ : date) (hol : list date) (s : settings) :
  ¬ window_ok start end_ →
  collect_loop (Z.to_nat (end_ - start + 1)) start
    (allowed_weekdays_of (default 5 (working_days_per_week s)))
    (list_to_set hol) []
  = Raise OverflowError.
Proof.
  unfold window_ok. intros Hw. apply collect_loop_Raise; lia.
Qed.

Lemma elem_of_eligible_days (start end_ : date) (hol : list date)
    (s : settings) (d : date) :
  d ∈ eligible_days start end_ hol s ↔
    start ≤ d ≤ end_
    ∧ weekday d ∈ allowed_weekdays_of (default 5 (working_days_per_week s))
    ∧ d ∉ hol.
Proof.
  rewrite eligible_days_filter, list_elem_of_filter, elem_of_seqZ,
    elem_of_list_to_set. intuition lia.
Qed.

Lemma StronglySorted_seqZ (m n : Z) : StronglySorted Z.lt (seqZ m n).
Proof.
  destruct (decide (0 ≤ n)) as [Hn|Hn]; [|rewrite seqZ_nil by lia; constructor].
  rewrite <- (Z2Nat.id n Hn). clear Hn. generalize (Z.to_nat n). clear n.
  intros n. revert m. induction n as [|n IH]; intros m.
  - rewrite seqZ_nil by lia. constructor.
  - rewrite seqZ_cons by lia. constructor.
    + replace (Z.pred (Z.of_nat (S n))) with (Z.of_nat n) by lia. apply IH.
    + apply Forall_forall. intros x Hx. apply elem_of_seqZ in Hx. lia.
Qed.

Lemma StronglySorted_filter {A} (R : relation A) (P : A → Prop)
    `{∀ x, Decision (P x)} (l : list A) :
  StronglySorted R l → StronglySorted R (filter P l).
Proof.
  induction 1 as [|x l Hs IH Hx]; [constructor|].
  rewrite filter_cons. case_decide; [|done].
  constructor; [done|].
  apply Forall_forall. intros y Hy. apply list_elem_of_filter in Hy as [_ Hy].
  by eapply Forall_forall in Hx.
Qed.

Lemma eligible_days_sorted (start end_ : date) (hol : list date) (s : settings) :
  StronglySorted Z.lt (eligible_days start end_ hol s).
Proof.
  rewrite eligible_days_filter. apply StronglySorted_filter, StronglySorted_seqZ.
Qed.

Lemma eligible_days_length (start end_ : date) (hol : list date) (s : settings) :
  len (eligible_days start end_ hol s) ≤ Z.max (end_ - start + 1) 0.
Proof.
  rewrite eligible_days_filter. unfold len.
  pose proof (length_filter (λ d, weekday d ∈ allowed_weekdays_of (default 5 (working_days_per_week s))
                 ∧ d ∉ (list_to_set hol : gset date)) (seqZ start (end_ - start + 1))) as H.
  rewrite length_seqZ in H. lia.
Qed.

Lemma eligible_days_spec (start end_ : date) (hol : list date) (s : settings) :
  0 ≤ default 5 (working_days_per_week s) →
  eligible_days start end_ hol s
  = spec_eligible start end_ (default 5 (working_days_per_week s)) hol.
Proof.
  intros Hw. rewrite eligible_days_filter. unfold spec_eligible.
  apply list_filter_iff. intros d.
  rewrite allowed_weekdays_of_eq, elem_of_first_weekdays, elem_of_list_to_set.
  pose proof (weekday_range d).
  destruct (Z.ltb_spec (default 5 (working_days_per_week s)) 0); [lia|].
  intuition lia.
Qed.

(** ** Indexing, comprehensions and the even spread *)

Lemma py_index_Ok {A} (l : list A) (i : Z) (x : A) :
  py_index l i = Ok x → x ∈ l.
Proof.
  unfold py_index. destruct (_ && _); [|done].
  destruct (l !! _) eqn:E; [|done].
  intros [= <-]. by apply list_elem_of_lookup_2 in E.
Qed.

Lemma py_index_in_range `{Inhabited A} (l : list A) (i : Z) :
  0 ≤ i < len l → py_index l i = Ok (l !!! Z.to_nat i).
Proof.
  intros Hi. unfold py_index, len in *.
  destruct (Z.ltb_spec i 0); [lia|].
  destruct (Z.leb_spec 0 i); [|lia].
  destruct (Z.ltb_spec i (Z.of_nat (length l))); [|lia]. simpl.
  destruct (lookup_lt_is_Some_2 l (Z.to_nat i) ltac:(lia)) as [x Hx].
  rewrite Hx. f_equal. symmetry. by apply list_lookup_total_correct.
Qed.

Lemma comprehension_fmap {A B} (f : A → result B) (g : A → B) (l : list A) :
  (∀ a, a ∈ l → f a = Ok (g a)) → comprehension f l = Ok (g <$> l).
Proof.
  induction l as [|a l IH]; intros Hf; [done|].
  cbn [comprehension]. rewrite Hf by left.
  rewrite IH by (intros; apply Hf; by right). done.
Qed.

Lemma comprehension_Ok {A B} (f : A → result B) (l : list A) (bs : list B) :
  comprehension f l = Ok bs → ∀ b, b ∈ bs → ∃ a, a ∈ l ∧ f a = Ok b.
Proof.
  revert bs. induction l as [|a l IH]; intros bs.
  - intros [= <-] b Hb. by apply elem_of_nil in Hb.
  - cbn [comprehension]. destruct (f a) as [b0|] eqn:Ea; [|done]. simpl.
    destruct (comprehension f l) as [bs0|] eqn:El; [|done]. simpl.
    intros [= <-] b Hb. apply elem_of_cons in Hb as [->|Hb].
    + exists a. split; [left|done].
    + destruct (IH _ eq_refl b Hb) as (a' & ? & ?). exists a'. split; [by right|done].
Qed.

Lemma StronglySorted_fmap_seqZ (f : Z → Z) (m r : Z) :
  (∀ i j, m ≤ i → i < j → j < m + r → f i < f j) →
  StronglySorted Z.lt (f <$> seqZ m r).
Proof.
  destruct (decide (0 ≤ r)) as [Hr|Hr];
    [|rewrite seqZ_nil by lia; constructor].
  rewrite <- (Z2Nat.id r Hr). clear Hr. generalize (Z.to_nat r). clear r.
  intros n. revert m. induction n as [|n IH]; intros m Hf.
  - rewrite seqZ_nil by lia. constructor.
  - rewrite seqZ_cons by lia. rewrite fmap_cons.
    replace (Z.pred (Z.of_nat (S n))) with (Z.of_nat n) by lia.
    constructor.
    + apply IH. intros i j ???. apply Hf; lia.
    + apply Forall_forall. intros y Hy.
      apply list_elem_of_fmap in Hy as (j & -> & Hj).
      apply elem_of_seqZ in Hj. apply Hf; lia.
Qed.

Lemma step_increasing (f : Z → Z) (r : Z) :
  (∀ i, 0 ≤ i → i + 1 < r → f i < f (i + 1)) →
  ∀ i j, 0 ≤ i → i < j → j < r → f i < f j.
Proof.
  intros Hstep i j Hi Hij Hj.
  replace j with (i + 1 + Z.of_nat (Z.to_nat (j - i - 1))) in * by lia.
  generalize dependent (Z.to_nat (j - i - 1)). intros k.
  induction k as [|k IH]; intros _ Hk.
  - replace (i + 1 + Z.of_nat 0) with (i + 1) by lia. apply Hstep; lia.
  - etrans; [apply IH; lia|].
    replace (i + 1 + Z.of_nat (S k)) with (i + 1 + Z.of_nat k + 1) by lia.
    apply Hstep; lia.
Qed.

Lemma StronglySorted_lookup_total (l : list Z) (i j : nat) :
  StronglySorted Z.lt l → (i < j)%nat → (j < length l)%nat →
  l !!! i < l !!! j.
Proof.
  intros Hs. revert i j. induction Hs as [|x l Hs IH Hx]; intros i j Hij Hj.
  - simpl in Hj. lia.
  - destruct j as [|j]; [lia|]. simpl in Hj.
    destruct i as [|i]; simpl.
    + rewrite Forall_forall in Hx. apply Hx.
      apply list_elem_of_lookup_total_2. lia.
    + apply IH; lia.
Qed.

Lemma StronglySorted_lt_NoDup (l : list Z) : StronglySorted Z.lt l → NoDup l.
Proof.
  induction 1 as [|x l Hs IH Hx]; constructor; [|done].
  intros Hin. rewrite Forall_forall in Hx. specialize (Hx _ Hin). lia.
Qed.

Section Spread.
Variable E : list Z.
Variable r : Z.
Hypothesis Hr : 1 ≤ r.
Hypothesis HrE : r < len E.
Hypothesis HE : len E ≤ max_window_days.

Let interval : float := round_float (inject_Z (len E) / inject_Z r).

Lemma py_truediv_interval : py_truediv (len E) r = Ok interval.
Proof. unfold py_truediv. destruct (Z.eqb_spec r 0); [lia|done]. Qed.

Lemma spread_indices_range (i : Z) :
  0 ≤ i < r → 0 ≤ spread_index interval i < len E.
Proof.
  intros Hi. split.
  - by apply (spread_index_nonneg (len E) r).
  - by apply (spread_index_upper (len E) r).
Qed.

Lemma spread_indices_increasing (i j : Z) :
  0 ≤ i → i < j → j < r → spread_index interval i < spread_index interval j.
Proof.
  apply step_increasing. intros k ??.
  by apply (spread_index_step (len E) r).
Qed.

Lemma spread_indices_sorted :
  StronglySorted Z.lt (spread_index interval <$> seqZ 0 r).
Proof.
  apply StronglySorted_fmap_seqZ. intros i j ???.
  apply spread_indices_increasing; lia.
Qed.

Lemma spread_days_eq :
  spread_days E r
  = Ok ((λ i, E !!! Z.to_nat (spread_index interval i)) <$> seqZ 0 r).
Proof.
  unfold spread_days. rewrite py_truediv_interval. simpl.
  apply comprehension_fmap. intros i Hi. apply elem_of_seqZ in Hi.
  apply py_index_in_range, spread_indices_range. lia.
Qed.

Lemma spread_days_sorted :
  StronglySorted Z.lt E →
  StronglySorted Z.lt
    ((λ i, E !!! Z.to_nat (spread_index interval i)) <$> seqZ 0 r).
Proof.
  intros Hs. apply StronglySorted_fmap_seqZ. intros i j ???.
  pose proof (spread_indices_range i ltac:(lia)).
  pose proof (spread_indices_range j ltac:(lia)).
  pose proof (spread_indices_increasing i j ltac:(lia) ltac:(lia) ltac:(lia)).
  apply StronglySorted_lookup_total; [done|lia|unfold len in *; lia].
Qed.
End Spread.

(** ** The calculator *)

Lemma calculate_working_days_unfold (start end_ r : Z) (hol : list Z) (s : settings) :
  window_ok start end_ →
  calculate_working_days start end_ r hol s
  = (working_days ←
       (if default false (spread_days_evenly s)
           && (r <? len (eligible_days start end_ hol s))
        then spread_days (eligible_days start end_ hol s) r
        else Ok (eligible_days start end_ hol s));
     Ok (len working_days, r <=? len working_days, working_days)).
Proof.
  intros Hw. unfold calculate_working_days.
  by rewrite collect_loop_eligible.
Qed.

Lemma calculate_overflow (start end_ r : Z) (hol : list Z) (s : settings) :
  ¬ window_ok start end_ →
  calculate_working_days start end_ r hol s = Raise OverflowError.
Proof.
  intros Hw. unfold calculate_working_days.
  by rewrite collect_loop_overflow.
Qed.

Lemma window_ok_cases (start end_ : Z) :
  window_ok start end_ ∨ ¬ window_ok start end_.
Proof. unfold window_ok. lia. Qed.

Lemma calculate_Ok_window (start end_ r : Z) (hol : list Z) (s : settings)
    (x : Z * bool * list Z) :
  calculate_working_days start end_ r hol s = Ok x → window_ok start end_.
Proof.
  intros Hc. destruct (window_ok_cases start end_) as [|Hw]; [done|].
  by rewrite calculate_overflow in Hc.
Qed.

Lemma valid_window_ok (start end_ : Z) :
  valid_date start → end_ < datetime_max_ordinal → window_ok start end_.
Proof. unfold valid_date, window_ok. lia. Qed.

Lemma calculate_no_spread (start end_ r : Z) (hol : list Z) (s : settings) :
  window_ok start end_ →
  default false (spread_days_evenly s) = false →
  calculate_working_days start end_ r hol s
  = Ok (len (eligible_days start end_ hol s),
        r <=? len (eligible_days start end_ hol s),
        eligible_days start end_ hol s).
Proof.
  intros Hw Hs. rewrite calculate_working_days_unfold, Hs by done. reflexivity.
Qed.

Lemma calculate_enough (start end_ r : Z) (hol : list Z) (s : settings) :
  window_ok start end_ →
  len (eligible_days start end_ hol s) ≤ r →
  calculate_working_days start end_ r hol s
  = Ok (len (eligible_days start end_ hol s),
        r <=? len (eligible_days start end_ hol s),
        eligible_days start end_ hol s).
Proof.
  intros Hw Hr. rewrite calculate_working_days_unfold by done.
  destruct (Z.ltb_spec r (len (eligible_days start end_ hol s))); [lia|].
  by rewrite andb_false_r.
Qed.

Lemma spread_days_Ok (E : list Z) (r : Z) (ds : list Z) :
  spread_days E r = Ok ds → ∀ d, d ∈ ds → d ∈ E.
Proof.
  unfold spread_days. destruct (py_truediv _ _) as [iv|]; [|done]. simpl.
  intros Hc d Hd.
  destruct (comprehension_Ok _ _ _ Hc d Hd) as (i & _ & Hi).
  by apply py_index_Ok in Hi.
Qed.

Lemma comprehension_length {A B} (f : A → result B) (l : list A)
    (bs : list B) :
  comprehension f l = Ok bs → length bs = length l.
Proof.
  revert bs. induction l as [|a l IH]; intros bs.
  - simpl. by intros [= <-].
  - cbn [comprehension]. destruct (f a); simpl; [|done].
    destruct (comprehension f l) as [bs0|]; simpl; [|done].
    intros [= <-]. simpl. f_equal. by apply IH.
Qed.

Lemma spread_days_length (E : list Z) (r : Z) (ds : list Z) :
  spread_days E r = Ok ds → len ds = Z.max r 0.
Proof.
  unfold spread_days. destruct (py_truediv _ _); simpl; [|done].
  intros H. apply comprehension_length in H.
  unfold len. rewrite H, length_seqZ. lia.
Qed.

Lemma calculate_Ok (start end_ r : Z) (hol : list Z) (s : settings)
    (c : Z) (b : bool) (ds : list Z) :
  calculate_working_days start end_ r hol s = Ok (c, b, ds) →
  c = len ds ∧ b = (r <=? len ds)
  ∧ ∀ d, d ∈ ds → d ∈ eligible_days start end_ hol s.
Proof.
  intros Hc. pose proof (calculate_Ok_window _ _ _ _ _ _ Hc) as Hw.
  revert Hc. rewrite calculate_working_days_unfold by done.
  destruct (_ && _).
  - destruct (spread_days _ _) as [ds'|] eqn:Hsp; [|done]. simpl.
    intros [= <- <- <-]. split_and!; [done..|].
    by apply (spread_days_Ok _ _ _ Hsp).
  - simpl. intros [= <- <- <-]. done.
Qed.

Lemma eligible_days_valid (start end_ : Z) (hol : list Z) (s : settings) :
  valid_date start → valid_date end_ →
  len (eligible_days start end_ hol s) ≤ max_window_days.
Proof.
  unfold valid_date. intros ??.
  pose proof (eligible_days_length start end_ hol s). lia.
Qed.

Lemma eligible_days_window (start end_ : Z) (hol : list Z) (s : settings) :
  window_ok start end_ →
  len (eligible_days start end_ hol s) ≤ max_window_days.
Proof.
  unfold window_ok, datetime_max_ordinal, max_window_days. intros ?.
  pose proof (eligible_days_length start end_ hol s). lia.
Qed.

Lemma calculate_spread (start end_ r : Z) (hol : list Z) (s : settings) :
  window_ok start end_ →
  spread_days_evenly s = Some true →
  1 ≤ r → r < len (eligible_days start end_ hol s) →
  calculate_working_days start end_ r hol s
  = Ok (r, true,
        (λ i, eligible_days start end_ hol s
                !!! Z.to_nat (spread_index
                     (round_float (inject_Z (len (eligible_days start end_ hol s))
                                   / inject_Z r)) i))
        <$> seqZ 0 r).
Proof.
  intros Hw Hs Hr HrE. pose proof (eligible_days_window _ _ hol s Hw) as HE.
  rewrite calculate_working_days_unfold, Hs by done. simpl.
  destruct (Z.ltb_spec r (len (eligible_days start end_ hol s))); [|lia].
  rewrite spread_days_eq by done. simpl.
  unfold len. rewrite length_fmap, length_seqZ, Z2Nat.id by lia.
  by rewrite Z.leb_refl.
Qed.

(** The returned days are in chronological order, with or without the
    even spread. *)
Lemma calculate_sorted (start end_ r : Z) (hol : list Z)
    (s : settings) (c : Z) (b : bool) (ds : list Z) :
  calculate_working_days start end_ r hol s = Ok (c, b, ds) →
  StronglySorted Z.lt ds.
Proof.
  intros Hc.
  pose proof (calculate_Ok_window _ _ _ _ _ _ Hc) as Hw.
  pose proof (eligible_days_window start end_ hol s Hw) as HE.
  destruct (default false (spread_days_evenly s)) eqn:Hsp.
  2:{ rewrite calculate_no_spread in Hc by done. injection Hc as _ _ <-.
      apply eligible_days_sorted. }
  destruct (Z_lt_le_dec r (len (eligible_days start end_ hol s)))
    as [Hlt|Hge].
  2:{ rewrite calculate_enough in Hc by done. injection Hc as _ _ <-.
      apply eligible_days_sorted. }
  assert (Hs' : spread_days_evenly s = Some true)
    by (destruct (spread_days_evenly s) as [[]|]; done).
  destruct (Z_lt_le_dec r 1) as [Hsmall|Hpos].
  - assert (ds = []); [|subst; constructor].
    rewrite calculate_working_days_unfold, Hsp in Hc by done.
    destruct (Z.ltb_spec r (len (eligible_days start end_ hol s))); [|lia].
    simpl in Hc.
    destruct (spread_days _ _) as [ds'|] eqn:Hd; simpl in Hc; [|done].
    injection Hc as _ _ <-. apply spread_days_length in Hd.
    destruct ds'; [done|]. unfold len in Hd. simpl in Hd. lia.
  - rewrite calculate_spread in Hc by done. injection Hc as _ _ <-.
    apply spread_days_sorted; [done..|]. apply eligible_days_sorted.
Qed.

(** ** The claiming loop *)

Lemma assign_days_spec (ds : list Z) (nm : string) (r : Z)
    (led : gmap Z string) (c : Z) (led' : gmap Z string) (c' : Z) :
  assign_days ds nm r led c = (led', c') →
  led ⊆ led' ∧ c ≤ c'
  ∧ (∀ d v, led' !! d = Some v → led !! d = Some v ∨ (d ∈ ds ∧ v = nm)).
Proof.
  revert led c. induction ds as [|day rest IH]; intros led c.
  - intros [= <- <-]. split_and!; [done|lia|]. intros; by left.
  - cbn [assign_days]. destruct (r <=? c).
    { intros [= <- <-]. split_and!; [done|lia|]. intros; by left. }
    destruct (decide (led !! day = None)) as [Hfree|Hused].
    + intros Hrec. destruct (IH _ _ Hrec) as (Hsub & Hc & Hnew).
      split_and!.
      * etrans; [|exact Hsub]. by apply insert_subseteq.
      * lia.
      * intros d v Hd. destruct (Hnew d v Hd) as [Hold|[Hin ->]].
        -- destruct (decide (day = d)) as [->|Hne].
           ++ rewrite lookup_insert_eq in Hold. injection Hold as <-.
              right. split; [left|done].
           ++ rewrite lookup_insert_ne in Hold by done. by left.
        -- right. split; [by right|done].
    + intros Hrec. destruct (IH _ _ Hrec) as (Hsub & Hc & Hnew).
      split_and!; [done..|].
      intros d v Hd. destruct (Hnew d v Hd) as [Hold|[Hin ->]]; [by left|].
      right. split; [by right|done].
Qed.


Lemma assign_days_none_free (ds : list Z) (nm : string) (r : Z)
    (led : gmap Z string) (c : Z) :
  (∀ d, d ∈ ds → is_Some (led !! d)) →
  assign_days ds nm r led c = (led, c).
Proof.
  induction ds as [|day rest IH]; intros Hall; [done|].
  cbn [assign_days]. destruct (r <=? c); [done|].
  destruct (decide (led !! day = None)) as [Hfree|Hused].
  - destruct (Hall day ltac:(left)) as [v Hv]. congruence.
  - apply IH. intros d Hd. apply Hall. by right.
Qed.

Lemma assign_days_fresh (ds : list Z) (nm : string) (r : Z)
    (led : gmap Z string) (c : Z) (led' : gmap Z string) (c' : Z) :
  assign_days ds nm r led c = (led', c') →
  NoDup ds → (∀ d, d ∈ ds → led !! d = None) → r - c ≤ len ds → r ≤ c'.
Proof.
  revert led c. induction ds as [|day rest IH]; intros led c.
  - intros [= <- <-] _ _. unfold len. simpl. lia.
  - cbn [assign_days]. destruct (Z.leb_spec r c).
    { intros [= <- <-]. lia. }
    intros Hrec Hnd Hfree Hlen.
    apply NoDup_cons in Hnd as [Hnotin Hnd].
    rewrite decide_True in Hrec by (apply Hfree; left).
    apply (IH _ _ Hrec Hnd).
    + intros d Hd. rewrite lookup_insert_ne by (intros ->; done).
      apply Hfree. by right.
    + unfold len in *. simpl in Hlen. lia.
Qed.

Lemma filter_ext_in {A} (P Q : A → Prop) `{∀ x, Decision (P x)}
    `{∀ x, Decision (Q x)} (l : list A) :
  (∀ x, x ∈ l → P x ↔ Q x) → filter P l = filter Q l.
Proof.
  induction l as [|a l IH]; intros HPQ; [done|].
  rewrite !filter_cons.
  rewrite IH by (intros; apply HPQ; by right).
  destruct (decide (P a)) as [Hp|Hp], (decide (Q a)) as [Hq|Hq];
    try done; exfalso; apply (HPQ a ltac:(left)) in Hp || apply Hp;
    try done; by apply (HPQ a ltac:(left)).
Qed.

Lemma filter_none {A} (P : A → Prop) `{∀ x, Decision (P x)} (l : list A) :
  (∀ x, x ∈ l → ¬ P x) → filter P l = [].
Proof.
  induction l as [|a l IH]; intros Hno; [done|].
  rewrite filter_cons, decide_False by (apply Hno; left).
  apply IH. intros; apply Hno; by right.
Qed.

Lemma filter_all {A} (P : A → Prop) `{∀ x, Decision (P x)} (l : list A) :
  (∀ x, x ∈ l → P x) → filter P l = l.
Proof.
  induction l as [|a l IH]; intros Hall; [done|].
  rewrite filter_cons, decide_True by (apply Hall; left).
  f_equal. apply IH. intros; apply Hall; by right.
Qed.

(** The loop claims the first [required_days - assigned_count] unclaimed
    days of a list without duplicates. *)
Lemma assign_days_take (ds : list Z) (nm : string) (r : Z)
    (led : gmap Z string) (c : Z) :
  NoDup ds →
  assign_days ds nm r led c
  = (claim_all nm
       (take (Z.to_nat (r - c)) (filter (λ d, led !! d = None) ds)) led,
     c + len (take (Z.to_nat (r - c)) (filter (λ d, led !! d = None) ds))).
Proof.
  revert led c. induction ds as [|day rest IH]; intros led c Hnd.
  - cbn [assign_days]. rewrite filter_nil, take_nil. unfold len. simpl.
    f_equal. lia.
  - apply NoDup_cons in Hnd as [Hnotin Hnd].
    cbn [assign_days]. destruct (Z.leb_spec r c).
    { rewrite Z2Nat.nonpos by lia. unfold len. simpl. f_equal. lia. }
    rewrite filter_cons.
    destruct (decide (led !! day = None)) as [Hfree|Hused].
    + rewrite IH by done.
      replace (Z.to_nat (r - c)) with (S (Z.to_nat (r - (c + 1)))) by lia.
      rewrite (filter_ext_in (λ d, <[day:=nm]> led !! d = None)
                 (λ d, led !! d = None) rest).
      2:{ intros d Hd. rewrite lookup_insert_ne; [done|]. by intros ->. }
      cbn [take claim_all foldl]. unfold len. simpl length. f_equal. lia.
    + by rewrite IH.
Qed.

Lemma claim_all_lookup (nm : string) (ds : list Z) (led : gmap Z string)
    (d : Z) :
  claim_all nm ds led !! d = if decide (d ∈ ds) then Some nm else led !! d.
Proof.
  revert led. induction ds as [|x ds IH]; intros led.
  - cbn [claim_all foldl]. case_decide as Hin; [|done].
    by apply elem_of_nil in Hin.
  - cbn [claim_all foldl]. fold (claim_all nm ds (<[x:=nm]> led)).
    rewrite IH. destruct (decide (d ∈ ds)) as [Hin|Hnin].
    + rewrite decide_True by (by right). done.
    + destruct (decide (d = x)) as [->|Hne].
      * rewrite decide_True by left. apply lookup_insert_eq.
      * rewrite decide_False by (rewrite elem_of_cons; tauto).
        by rewrite lookup_insert_ne.
Qed.

(** ** The loop over the projects *)

Lemma process_project_Ok (hol : list Z) (s : settings)
    (st st' : gmap Z string * list shortfall) (p : project) :
  process_project hol s st p = Ok st' →
  ∃ c b ds cnt,
    calculate_working_days (start_date p) (end_date p) (required_days p) hol s
      = Ok (c, b, ds)
    ∧ assign_days ds (name p) (required_days p) st.1 0 = (st'.1, cnt)
    ∧ st'.2 = (if cnt <? required_days p
               then st.2 ++ [Shortfall (name p) cnt (required_days p)]
               else st.2).
Proof.
  unfold process_project.
  destruct (calculate_working_days _ _ _ _ _) as [[[c b] ds]|] eqn:Hc; [|done].
  simpl. destruct (assign_days _ _ _ _ _) as [led' cnt] eqn:Ha.
  intros [= <-]. by exists c, b, ds, cnt.
Qed.

Lemma process_project_ledger (hol : list Z) (s : settings)
    (st st' : gmap Z string * list shortfall) (p : project) :
  process_project hol s st p = Ok st' →
  st.1 ⊆ st'.1
  ∧ ∀ d v, st'.1 !! d = Some v →
      st.1 !! d = Some v
      ∨ (v = name p ∧ d ∈ eligible_days (start_date p) (end_date p) hol s).
Proof.
  intros Hp. apply process_project_Ok in Hp as (c & b & ds & cnt & Hc & Ha & _).
  apply calculate_Ok in Hc as (_ & _ & Hds).
  apply assign_days_spec in Ha as (Hsub & _ & Hnew).
  split; [done|]. intros d v Hd.
  destruct (Hnew d v Hd) as [?|[? ->]]; [by left|right]. auto.
Qed.

Lemma project_loop_app (hol : list Z) (s : settings) (l1 l2 : list project)
    (st : gmap Z string * list shortfall) :
  project_loop hol s (l1 ++ l2) st
  = (st1 ← project_loop hol s l1 st; project_loop hol s l2 st1).
Proof.
  revert st. induction l1 as [|p l1 IH]; intros st; [done|].
  cbn [app project_loop]. destruct (process_project hol s st p); [|done].
  simpl. apply IH.
Qed.

Lemma project_loop_ledger (hol : list Z) (s : settings) (ps : list project)
    (st st' : gmap Z string * list shortfall) :
  project_loop hol s ps st = Ok st' →
  st.1 ⊆ st'.1
  ∧ ∀ d v, st'.1 !! d = Some v →
      st.1 !! d = Some v
      ∨ ∃ p, p ∈ ps ∧ v = name p
             ∧ d ∈ eligible_days (start_date p) (end_date p) hol s.
Proof.
  revert st. induction ps as [|p ps IH]; intros st.
  - intros [= <-]. split; [done|]. intros; by left.
  - cbn [project_loop].
    destruct (process_project hol s st p) as [st1|] eqn:Hp; [|done]. simpl.
    intros Hloop. apply IH in Hloop as [Hsub Hnew].
    apply process_project_ledger in Hp as [Hsub1 Hnew1].
    split; [by etrans|].
    intros d v Hd. destruct (Hnew d v Hd) as [Hold|(q & Hq & Hv & Hin)].
    + destruct (Hnew1 d v Hold) as [?|[-> ?]]; [by left|].
      right. exists p. split_and!; [left|done..].
    + right. exists q. split_and!; [by right|done..].
Qed.

Lemma insert_by_key_perm (x : Z * project) (l : list (Z * project)) :
  insert_by_key x l ≡ₚ x :: l.
Proof.
  induction l as [|y l IH]; [done|].
  cbn [insert_by_key]. destruct (y.1 <=? x.1); [|done].
  rewrite IH. apply Permutation_swap.
Qed.

Lemma foldl_insert_by_key_perm (keyed acc : list (Z * project)) :
  foldl (λ acc x, insert_by_key x acc) acc keyed ≡ₚ keyed ++ acc.
Proof.
  revert acc. induction keyed as [|x keyed IH]; intros acc; [done|].
  simpl. rewrite IH, insert_by_key_perm. by rewrite Permutation_middle.
Qed.

Lemma comprehension_priority_key (ps : list project) (keyed : list (Z * project)) :
  comprehension priority_key ps = Ok keyed → keyed.*2 = ps.
Proof.
  revert keyed. induction ps as [|p ps IH]; intros keyed.
  - simpl. by intros [= <-].
  - cbn [comprehension].
    destruct (priority_key p) as [[k q]|] eqn:Hkp; simpl; [|done].
    destruct (comprehension priority_key ps); simpl; [|done].
    intros [= <-]. simpl. f_equal; [|by apply IH].
    unfold priority_key in Hkp. destruct (priority p); congruence.
Qed.

Lemma sorted_by_priority_perm (ps sorted : list project) :
  sorted_by_priority ps = Ok sorted → sorted ≡ₚ ps.
Proof.
  unfold sorted_by_priority.
  destruct (comprehension priority_key ps) as [keyed|] eqn:Hk; [|done].
  simpl. intros [= <-].
  rewrite <- (comprehension_priority_key _ _ Hk).
  change (map snd) with (fmap (M:=list) (@snd Z project)).
  rewrite foldl_insert_by_key_perm. by rewrite app_nil_r.
Qed.

(** * The claims of the specification *)

(** ** Priority validation *)

Lemma StronglySorted_le_seqZ (m n : Z) : StronglySorted Z.le (seqZ m n).
Proof.
  pose proof (StronglySorted_seqZ m n) as Hs.
  induction Hs as [|x l Hs IH Hx]; constructor; [done|].
  eapply Forall_impl; [exact Hx|]. intros y ?. lia.
Qed.

(** C2: [validate_priorities] returns [True] exactly when the priorities, a
    missing one counted as 0, are a permutation of [1 .. N]; otherwise it
    raises the [ValueError] that carries the sorted priorities and [N]. *)
Theorem validate_priorities_iff (ps : list project) :
  (validate_priorities ps = Ok true
   ↔ map (λ p, default 0 (priority p)) ps ≡ₚ seqZ 1 (len ps))
  ∧ (validate_priorities ps = Ok true
     ∨ validate_priorities ps
       = Raise (ValueError
                  (merge_sort Z.le (map (λ p, default 0 (priority p)) ps))
                  (length ps))).
Proof.
  unfold validate_priorities.
  set (l := map (λ p, default 0 (priority p)) ps).
  split.
  - destruct (decide (merge_sort Z.le l = seqZ 1 (len ps))) as [He|Hne].
    + split; [|done]. intros _. rewrite <- He.
      symmetry. apply merge_sort_Permutation.
    + split; [done|]. intros Hp. exfalso. apply Hne.
      apply (StronglySorted_unique Z.le).
      * apply StronglySorted_merge_sort; apply _.
      * apply StronglySorted_le_seqZ.
      * by rewrite merge_sort_Permutation.
  - destruct (decide _); [by left|by right].
Qed.

(** ** The allowed weekdays *)

(** The slice [range(5)[:w]] with [w] the setting, 5 when absent: from 0
    upwards it is the first [clamp w 0 5] weekdays; a negative [w] counts
    from the end of the week, which gives the first [clamp (w + 5) 0 5]
    weekdays. *)
Lemma allowed_weekdays_slice (s : settings) :
  let w := default 5 (working_days_per_week s) in
  allowed_weekdays_of w
  = first_weekdays (if w <? 0 then clamp (w + 5) 0 5 else clamp w 0 5).
Proof.
  intros w. rewrite allowed_weekdays_of_eq. unfold clamp.
  destruct (Z.ltb_spec w 0); f_equal; lia.
Qed.

(** C3: the slice of line 56 takes the first [w] weekdays for every
    [w >= 0] but not for a negative setting: with
    [working_days_per_week = -1] the allowed weekdays are Monday to
    Thursday, not the empty set of [clamp (-1) 0 5 = 0] weekdays, and the
    calculator returns Monday 2024-01-01 as a working day. *)
Theorem negative_setting_not_clamped :
  allowed_weekdays_of (default 5 (working_days_per_week (Settings (Some (-1)) None)))
    ≠ first_weekdays (clamp (-1) 0 5)
  ∧ allowed_weekdays_of (-1) = [0; 1; 2; 3]
  ∧ first_weekdays (clamp (-1) 0 5) = []
  ∧ calculate_working_days 738886 738886 1 [] (Settings (Some (-1)) None)
    = Ok (1, true, [738886]).
Proof. split_and!; [discriminate|reflexivity..]. Qed.

(** ** Failures of the calculator *)

(** C4: a required day count of 0 with the even spread enabled and one
    eligible day: the division [len(working_days) / required_days] raises. *)
Theorem spread_zero_required_raises :
  eligible_days 738886 738886 [] (Settings (Some 5) (Some true)) = [738886]
  ∧ calculate_working_days 738886 738886 0 [] (Settings (Some 5) (Some true))
    = Raise ZeroDivisionError.
Proof. split; reflexivity. Qed.

(** C5: a single project of priority 1 that requires 0 days: validation
    succeeds and the run raises inside the loop over the projects. *)
Theorem run_raises_after_validation :
  let data := Config [Project "A" (Some 1) 738886 738890 0] []
                     (Settings None (Some true)) in
  validate_priorities (projects data) = Ok true
  ∧ assign_project_dates data = Raise ZeroDivisionError.
Proof. split; reflexivity. Qed.

(** The first half of C5 holds: a failed validation is the result of the
    run, and nothing else is computed. *)
Lemma validation_failure_aborts (data : config) (e : exn) :
  validate_priorities (projects data) = Raise e →
  assign_project_dates data = Raise e.
Proof. intros H. unfold assign_project_dates. by rewrite H. Qed.

(** The division by zero is the only failure of the calculator on a
    window whose loop stays within [datetime]; a window that reaches
    9999-12-31 fails with [OverflowError] ([calculate_overflow]). *)
Lemma calculate_returns (start end_ r : Z) (hol : list Z) (s : settings) :
  window_ok start end_ →
  default false (spread_days_evenly s) = false ∨ r ≠ 0 →
  ∃ res, calculate_working_days start end_ r hol s = Ok res.
Proof.
  intros Hw Hcase.
  destruct Hcase as [Hoff|Hr]; [rewrite calculate_no_spread by done; eauto|].
  destruct (default false (spread_days_evenly s)) eqn:Hsp;
    [|rewrite calculate_no_spread by done; eauto].
  assert (Hs' : spread_days_evenly s = Some true).
  { destruct (spread_days_evenly s) as [[]|]; done. }
  destruct (Z_lt_le_dec r (len (eligible_days start end_ hol s))) as [Hlt|Hge];
    [|rewrite calculate_enough by done; eauto].
  destruct (Z_lt_le_dec r 1) as [Hneg|Hpos].
  - rewrite calculate_working_days_unfold, Hsp by done.
    destruct (Z.ltb_spec r (len (eligible_days start end_ hol s))); [|lia].
    simpl. unfold spread_days, py_truediv.
    destruct (Z.eqb_spec r 0); [lia|]. simpl.
    rewrite seqZ_nil by lia. simpl. eauto.
  - rewrite calculate_spread; eauto.
Qed.

(** ** The eligible days without the even spread *)

Lemma elem_of_spec_eligible (start end_ w : Z) (hol : list Z) (d : Z) :
  d ∈ spec_eligible start end_ w hol
  ↔ start ≤ d ≤ end_ ∧ weekday d < Z.min w 5 ∧ d ∉ hol.
Proof.
  unfold spec_eligible. rewrite list_elem_of_filter, elem_of_seqZ.
  intuition lia.
Qed.

(** C6: without the even spread, whenever the calculator returns it
    returns the dates of the window whose weekday is among the first
    [working_days_per_week] weekdays of Monday to Friday and that are no
    holiday, in chronological order, and [available_days] is their number.
    It returns for every window that ends before 9999-12-31; for a window
    that ends on that date the last [current += timedelta(days=1)] raises
    [OverflowError]. *)
Theorem working_days_without_spread (start end_ r : Z) (hol : list Z)
    (s : settings) :
  start ≤ end_ →
  default false (spread_days_evenly s) = false →
  0 ≤ default 5 (working_days_per_week s) →
  let w := default 5 (working_days_per_week s) in
  let days := spec_eligible start end_ w hol in
  (∀ c b ds,
     calculate_working_days start end_ r hol s = Ok (c, b, ds) →
     c = len days ∧ b = (r <=? len days) ∧ ds = days)
  ∧ (valid_date start → end_ < datetime_max_ordinal →
     calculate_working_days start end_ r hol s
     = Ok (len days, r <=? len days, days))
  ∧ (valid_date start → end_ = datetime_max_ordinal →
     calculate_working_days start end_ r hol s = Raise OverflowError)
  ∧ StronglySorted Z.lt days
  ∧ ∀ d, d ∈ days ↔ start ≤ d ≤ end_ ∧ weekday d < Z.min w 5 ∧ d ∉ hol.
Proof.
  intros Hse Hsp Hw w days. unfold days, w.
  rewrite <- eligible_days_spec by done.
  split_and!.
  - intros c b ds Hc.
    pose proof (calculate_Ok_window _ _ _ _ _ _ Hc) as Hwin.
    rewrite calculate_no_spread in Hc by done. by injection Hc as <- <- <-.
  - intros Hs He. apply calculate_no_spread; [|done].
    by apply valid_window_ok.
  - intros Hs He. apply calculate_overflow.
    unfold window_ok, valid_date in *. lia.
  - apply eligible_days_sorted.
  - intros d. rewrite eligible_days_spec by done. apply elem_of_spec_eligible.
Qed.

Lemma working_days_without_spread_witness :
  calculate_working_days 738886 738892 5 [738888] (Settings (Some 3) None)
  = Ok (2, false, [738886; 738887])
  ∧ calculate_working_days 3652053 3652059 5 [] (Settings (Some 3) None)
    = Raise OverflowError.
Proof.
  split.
  - destruct (working_days_without_spread 738886 738892 5 [738888]
                (Settings (Some 3) None)) as (_ & H & _).
    + lia.
    + reflexivity.
    + simpl. lia.
    + apply H.
      * unfold valid_date, max_window_days. lia.
      * unfold datetime_max_ordinal. lia.
  - destruct (working_days_without_spread 3652053 3652059 5 []
                (Settings (Some 3) None)) as (_ & _ & H & _).
    + lia.
    + reflexivity.
    + simpl. lia.
    + apply H.
      * unfold valid_date, max_window_days. lia.
      * reflexivity.
Defined.

(** ** Weekends *)

Lemma eligible_days_weekday (start end_ : Z) (hol : list Z) (s : settings)
    (d : Z) :
  d ∈ eligible_days start end_ hol s → 0 ≤ weekday d < 5.
Proof.
  rewrite elem_of_eligible_days, allowed_weekdays_of_eq,
    elem_of_first_weekdays.
  destruct (Z.ltb_spec (default 5 (working_days_per_week s)) 0); lia.
Qed.

(** C9: whatever the setting, the window and the holidays, a date that the
    calculator returns is no Saturday (5) and no Sunday (6), and neither is
    a date of the ledger of a run. *)
Theorem no_weekend_day (start end_ r : Z) (hol : list Z) (s : settings)
    (c : Z) (b : bool) (ds : list Z)
    (data : config) (ledger : gmap Z string) (shortfalls : list shortfall) :
  (calculate_working_days start end_ r hol s = Ok (c, b, ds) →
   ∀ d, d ∈ ds → weekday d ≠ 5 ∧ weekday d ≠ 6)
  ∧ (assign_project_dates data = Ok (ledger, shortfalls) →
     ∀ d nm, ledger !! d = Some nm → weekday d ≠ 5 ∧ weekday d ≠ 6).
Proof.
  split.
  - intros Hc d Hd. apply calculate_Ok in Hc as (_ & _ & Hsub).
    pose proof (eligible_days_weekday _ _ _ _ _ (Hsub d Hd)). lia.
  - unfold assign_project_dates.
    destruct (validate_priorities _); simpl; [|done].
    destruct (sorted_by_priority _) as [sorted|]; simpl; [|done].
    intros Hloop d nm Hd.
    apply project_loop_ledger in Hloop as [_ Hnew].
    destruct (Hnew d nm Hd) as [Hempty|(p & _ & _ & Hin)].
    + simpl in Hempty. by rewrite lookup_empty in Hempty.
    + pose proof (eligible_days_weekday _ _ _ _ _ Hin). lia.
Qed.

Lemma no_weekend_day_witness :
  (∀ d, d ∈ [738886; 738887; 738890; 738893] → weekday d ≠ 5 ∧ weekday d ≠ 6)
  ∧ (∀ d nm,
       (<[738887 := "A"]> (<[738886 := "A"]> ∅) : gmap Z string)
         !! d = Some nm →
       weekday d ≠ 5 ∧ weekday d ≠ 6).
Proof.
  pose proof (no_weekend_day 738886 738893 9 [738888; 738889]
                (Settings (Some 7) None) 4 false
                [738886; 738887; 738890; 738893]
                (Config [Project "A" (Some 1) 738886 738892 3]
                        [738888; 738889] (Settings (Some (-2)) None))
                (<[738887 := "A"]> (<[738886 := "A"]> ∅))
                [Shortfall "A" 2 3]) as [H1 H2].
  split.
  - apply H1. reflexivity.
  - apply H2. vm_compute. reflexivity.
Defined.

(** ** The even spread *)

(** C10: when the even spread runs (the window starts on a date that
    [datetime] can hold and ends before 9999-12-31, so that the loop over
    the dates finishes), the division returns, every index [int(round(i * interval))] is within the
    list of eligible days, the indices increase strictly with [i], and the
    calculator returns exactly [required_days] dates in chronological
    order. *)
Theorem spread_indices_in_range_increasing (start end_ r : Z)
    (hol : list Z) (s : settings) :
  valid_date start → end_ < datetime_max_ordinal →
  spread_days_evenly s = Some true →
  1 ≤ r → r < len (eligible_days start end_ hol s) →
  let E := eligible_days start end_ hol s in
  ∃ interval ds,
    py_truediv (len E) r = Ok interval
    ∧ (∀ i, 0 ≤ i < r → 0 ≤ spread_index interval i ≤ len E - 1)
    ∧ (∀ i j, 0 ≤ i → i < j → j < r →
         spread_index interval i < spread_index interval j)
    ∧ ds = (λ i, E !!! Z.to_nat (spread_index interval i)) <$> seqZ 0 r
    ∧ calculate_working_days start end_ r hol s = Ok (r, true, ds)
    ∧ len ds = r
    ∧ StronglySorted Z.lt ds.
Proof.
  intros Hs He Hsp Hr HrE E.
  pose proof (valid_window_ok start end_ Hs He) as Hw.
  pose proof (eligible_days_window start end_ hol s Hw) as HE.
  fold E in HrE, HE.
  exists (round_float (inject_Z (len E) / inject_Z r)).
  eexists. split_and!; [| | |reflexivity| | |].
  - by apply py_truediv_interval.
  - intros i Hi. pose proof (spread_indices_range E r Hr HrE HE i Hi). lia.
  - intros i j ???. by apply spread_indices_increasing.
  - by apply calculate_spread.
  - unfold len. rewrite length_fmap, length_seqZ. lia.
  - apply spread_days_sorted; [done..|]. apply eligible_days_sorted.
Qed.

Lemma spread_indices_in_range_increasing_witness :
  ∃ interval ds,
    py_truediv 9 3 = Ok interval
    ∧ (∀ i, 0 ≤ i < 3 → 0 ≤ spread_index interval i ≤ 9 - 1)
    ∧ (∀ i j, 0 ≤ i → i < j → j < 3 →
         spread_index interval i < spread_index interval j)
    ∧ ds = (λ i, eligible_days 738886 738899 [738888] (Settings None (Some true))
                   !!! Z.to_nat (spread_index interval i)) <$> seqZ 0 3
    ∧ calculate_working_days 738886 738899 3 [738888] (Settings None (Some true))
      = Ok (3, true, ds)
    ∧ len ds = 3
    ∧ StronglySorted Z.lt ds.
Proof.
  apply (spread_indices_in_range_increasing 738886 738899 3 [738888]
           (Settings None (Some true))).
  - unfold valid_date, max_window_days. lia.
  - unfold datetime_max_ordinal. lia.
  - reflexivity.
  - lia.
  - vm_compute. reflexivity.
Defined.

(** C8 does not hold: on dates that [datetime] can hold there is no input
    with the even spread enabled and more eligible days than the
    [required_days >= 1] for which two indices coincide. *)
Lemma no_index_collision :
  ¬ ∃ (start end_ r : Z) (hol : list Z) (s : settings) (interval : float),
      valid_date start ∧ valid_date end_
      ∧ spread_days_evenly s = Some true
      ∧ 1 ≤ r ∧ r < len (eligible_days start end_ hol s)
      ∧ py_truediv (len (eligible_days start end_ hol s)) r = Ok interval
      ∧ ¬ NoDup (spread_index interval <$> seqZ 0 r).
Proof.
  intros (start & end_ & r & hol & s & interval
          & Hs & He & Hsp & Hr & HrE & Hdiv & Hdup).
  apply Hdup.
  pose proof (eligible_days_valid start end_ hol s Hs He) as HE.
  rewrite py_truediv_interval in Hdiv by done. injection Hdiv as <-.
  apply StronglySorted_lt_NoDup. by apply spread_indices_sorted.
Qed.

(** C8, as the code has it: with the even spread enabled and more eligible
    days than [required_days >= 1], the indices are pairwise distinct, and
    the calculator returns [required_days] pairwise distinct dates. The
    window starts on a date that [datetime] can hold and ends before
    9999-12-31, so that the loop over the dates finishes. *)
Theorem spread_days_distinct (start end_ r : Z) (hol : list Z) (s : settings) :
  valid_date start → end_ < datetime_max_ordinal →
  spread_days_evenly s = Some true →
  1 ≤ r → r < len (eligible_days start end_ hol s) →
  ∃ interval ds,
    py_truediv (len (eligible_days start end_ hol s)) r = Ok interval
    ∧ NoDup (spread_index interval <$> seqZ 0 r)
    ∧ calculate_working_days start end_ r hol s = Ok (r, true, ds)
    ∧ NoDup ds
    ∧ len ds = r.
Proof.
  intros Hs He Hsp Hr HrE.
  pose proof (valid_window_ok start end_ Hs He) as Hw.
  pose proof (eligible_days_window start end_ hol s Hw) as HE.
  eexists _, _. split_and!.
  - by apply py_truediv_interval.
  - apply StronglySorted_lt_NoDup. by apply spread_indices_sorted.
  - by apply calculate_spread.
  - apply StronglySorted_lt_NoDup.
    apply spread_days_sorted; [done..|]. apply eligible_days_sorted.
  - unfold len. rewrite length_fmap, length_seqZ. lia.
Qed.

Lemma spread_days_distinct_witness :
  ∃ interval ds,
    py_truediv 5 3 = Ok interval
    ∧ NoDup (spread_index interval <$> seqZ 0 3)
    ∧ calculate_working_days 738886 738892 3 [] (Settings (Some 5) (Some true))
      = Ok (3, true, ds)
    ∧ NoDup ds
    ∧ len ds = 3.
Proof.
  apply (spread_days_distinct 738886 738892 3 []
           (Settings (Some 5) (Some true))).
  - unfold valid_date, max_window_days. lia.
  - unfold datetime_max_ordinal. lia.
  - reflexivity.
  - lia.
  - vm_compute. reflexivity.
Defined.

(** ** The priority order *)

Lemma insert_by_key_sorted (x : Z * project) (l : list (Z * project)) :
  StronglySorted key_le l → StronglySorted key_le (insert_by_key x l).
Proof.
  induction 1 as [|y l Hs IH Hy]; [repeat constructor|].
  cbn [insert_by_key]. destruct (Z.leb_spec y.1 x.1).
  - constructor; [done|]. rewrite insert_by_key_perm. by constructor.
  - constructor; [by constructor|]. constructor; [unfold key_le; lia|].
    eapply Forall_impl; [exact Hy|]. unfold key_le. intros; lia.
Qed.

Lemma foldl_insert_by_key_sorted (keyed acc : list (Z * project)) :
  StronglySorted key_le acc →
  StronglySorted key_le (foldl (λ acc x, insert_by_key x acc) acc keyed).
Proof.
  revert acc. induction keyed as [|x keyed IH]; intros acc Hs; [done|].
  simpl. by apply IH, insert_by_key_sorted.
Qed.

Lemma StronglySorted_fmap_fst (l : list (Z * project)) :
  StronglySorted key_le l → StronglySorted Z.le l.*1.
Proof.
  induction 1 as [|y l Hs IH Hy]; [constructor|]. simpl.
  constructor; [done|]. by apply Forall_fmap.
Qed.

Lemma comprehension_priority_key_fst (ps : list project)
    (keyed : list (Z * project)) :
  comprehension priority_key ps = Ok keyed →
  keyed.*1 = (λ p, default 0 (priority p)) <$> ps.
Proof.
  revert keyed. induction ps as [|p ps IH]; intros keyed.
  - simpl. by intros [= <-].
  - cbn [comprehension].
    destruct (priority_key p) as [[k q]|] eqn:Hkp; simpl; [|done].
    destruct (comprehension priority_key ps); simpl; [|done].
    intros [= <-]. simpl. f_equal; [|by apply IH].
    unfold priority_key in Hkp. destruct (priority p); simpl; congruence.
Qed.

Lemma validate_priorities_Ok (ps : list project) (b : bool) :
  validate_priorities ps = Ok b →
  merge_sort Z.le ((λ p, default 0 (priority p)) <$> ps) = seqZ 1 (len ps).
Proof. unfold validate_priorities. by destruct (decide _). Qed.

(** After a successful validation every project has its priority, so the
    sort finds every key, and it puts the priorities in the order
    [1 .. N]. *)
Lemma sorted_by_priority_order (ps : list project) (b : bool) :
  validate_priorities ps = Ok b →
  ∃ sorted,
    sorted_by_priority ps = Ok sorted
    ∧ sorted ≡ₚ ps
    ∧ priority <$> sorted = Some <$> seqZ 1 (len ps).
Proof.
  intros Hv. apply validate_priorities_Ok in Hv.
  assert (Hperm : (λ p, default 0 (priority p)) <$> ps ≡ₚ seqZ 1 (len ps)).
  { rewrite <- Hv. symmetry. apply merge_sort_Permutation. }
  assert (Hall : ∀ p, p ∈ ps → priority_key p = Ok (default 0 (priority p), p)).
  { intros p Hp. unfold priority_key.
    destruct (priority p) as [k|] eqn:Hk; [done|]. exfalso.
    assert (H0 : 0 ∈ seqZ 1 (len ps)).
    { rewrite <- Hperm. apply list_elem_of_fmap. exists p. by rewrite Hk. }
    apply elem_of_seqZ in H0. lia. }
  pose proof (comprehension_fmap priority_key
                (λ p, (default 0 (priority p), p)) ps Hall) as Hk.
  unfold sorted_by_priority. rewrite Hk. simpl.
  eexists. split; [reflexivity|].
  set (keyed := (λ p, (default 0 (priority p), p)) <$> ps) in *.
  set (out := foldl (λ acc x, insert_by_key x acc) [] keyed).
  assert (Hout : out ≡ₚ keyed).
  { unfold out. rewrite foldl_insert_by_key_perm. by rewrite app_nil_r. }
  assert (Hinv : ∀ x, x ∈ out → priority x.2 = Some x.1).
  { intros x Hx. rewrite Hout in Hx. unfold keyed in Hx.
    apply list_elem_of_fmap in Hx as (p & -> & Hp). simpl.
    specialize (Hall p Hp). unfold priority_key in Hall.
    destruct (priority p); [simpl; congruence|done]. }
  change (map snd out) with (out.*2).
  split.
  - rewrite Hout. unfold keyed. rewrite <- list_fmap_compose.
    by rewrite list_fmap_id.
  - assert (Hkeys : out.*1 = seqZ 1 (len ps)).
    { apply (StronglySorted_unique Z.le).
      - apply StronglySorted_fmap_fst, foldl_insert_by_key_sorted. constructor.
      - apply StronglySorted_le_seqZ.
      - rewrite Hout. unfold keyed. rewrite <- list_fmap_compose.
        exact Hperm. }
    rewrite <- Hkeys. rewrite <- !list_fmap_compose.
    apply Forall_fmap_ext, Forall_forall. intros x Hx. simpl. by apply Hinv.
Qed.

(** ** The ledger *)

(** C1: in the ledger of a run every date has one name, the name of a
    project whose window holds the date; the projects are processed in the
    order of their priorities [1 .. N], and what the ledger holds after any
    number of them is still in the final ledger: a claimed date keeps its
    first name. *)
Theorem ledger_invariant (data : config) (ledger : gmap Z string)
    (shortfalls : list shortfall) :
  assign_project_dates data = Ok (ledger, shortfalls) →
  (∀ d n1 n2, ledger !! d = Some n1 → ledger !! d = Some n2 → n1 = n2)
  ∧ (∀ d nm, ledger !! d = Some nm →
       ∃ p, p ∈ projects data ∧ name p = nm
            ∧ start_date p ≤ d ≤ end_date p)
  ∧ ∃ sorted,
      sorted_by_priority (projects data) = Ok sorted
      ∧ priority <$> sorted = Some <$> seqZ 1 (len (projects data))
      ∧ ∀ l1 l2, sorted = l1 ++ l2 →
          ∃ st1,
            project_loop (holidays data) (cfg_settings data) l1 (∅, [])
              = Ok st1
            ∧ project_loop (holidays data) (cfg_settings data) l2 st1
              = Ok (ledger, shortfalls)
            ∧ st1.1 ⊆ ledger.
Proof.
  unfold assign_project_dates.
  destruct (validate_priorities (projects data)) as [b|] eqn:Hv; simpl; [|done].
  destruct (sorted_by_priority_order _ _ Hv) as (sorted & Hs & Hperm & Hprio).
  rewrite Hs. simpl. intros Hloop. split_and!.
  - congruence.
  - intros d nm Hd.
    destruct (project_loop_ledger _ _ _ _ _ Hloop) as [_ Hnew].
    destruct (Hnew d nm Hd) as [Hempty|(p & Hp & -> & Hin)].
    + simpl in Hempty. by rewrite lookup_empty in Hempty.
    + exists p. rewrite Hperm in Hp. split; [done|split; [done|]].
      apply elem_of_eligible_days in Hin. lia.
  - exists sorted. split_and!; [done..|].
    intros l1 l2 ->. rewrite project_loop_app in Hloop.
    destruct (project_loop _ _ l1 _) as [st1|]; simpl in Hloop; [|done].
    exists st1. split_and!; [done..|].
    by destruct (project_loop_ledger _ _ _ _ _ Hloop) as [Hsub _].
Qed.

Lemma ledger_invariant_witness :
  assign_project_dates
    (Config [Project "B" (Some 2) 738886 738890 4;
             Project "A" (Some 1) 738888 738892 2]
            [] (Settings None None))
  = Ok (<[738890 := "B"]> (<[738887 := "B"]> (<[738886 := "B"]>
          (<[738889 := "A"]> (<[738888 := "A"]> ∅)))),
        [Shortfall "B" 3 4])
  ∧ ∃ p, p ∈ [Project "B" (Some 2) 738886 738890 4;
              Project "A" (Some 1) 738888 738892 2]
         ∧ name p = "B" ∧ start_date p ≤ 738890 ≤ end_date p.
Proof.
  assert (Hrun : assign_project_dates
            (Config [Project "B" (Some 2) 738886 738890 4;
                     Project "A" (Some 1) 738888 738892 2]
                    [] (Settings None None))
          = Ok (<[738890 := "B"]> (<[738887 := "B"]> (<[738886 := "B"]>
                  (<[738889 := "A"]> (<[738888 := "A"]> ∅)))),
                [Shortfall "B" 3 4]))
    by (vm_compute; reflexivity).
  split; [exact Hrun|].
  destruct (ledger_invariant _ _ _ Hrun) as (_ & H & _).
  apply (H 738890 "B"). vm_compute. reflexivity.
Defined.

(** ** Priority precedence *)

(** A run of two projects with the priorities 1 and 2 processes the one of
    priority 1 first. *)
Lemma run_two_projects (A B : project) (ps : list project) (hol : list Z)
    (s : settings) :
  ps = [A; B] ∨ ps = [B; A] →
  priority A = Some 1 → priority B = Some 2 →
  assign_project_dates (Config ps hol s)
  = (st1 ← process_project hol s (∅, []) A; process_project hol s st1 B).
Proof.
  intros Hps HA HB.
  destruct A as [nA pA sA eA rA], B as [nB pB sB eB rB]. simpl in HA, HB.
  subst pA pB.
  assert (Hv : validate_priorities ps = Ok true)
    by (destruct Hps as [-> | ->]; reflexivity).
  assert (Hs : sorted_by_priority ps
               = Ok [Project nA (Some 1) sA eA rA; Project nB (Some 2) sB eB rB])
    by (destruct Hps as [-> | ->]; reflexivity).
  unfold assign_project_dates. cbn [projects holidays cfg_settings].
  rewrite Hv, Hs. cbn [mbind result_bind project_loop].
  destruct (process_project hol s (∅, []) (Project nA (Some 1) sA eA rA))
    as [st1|]; simpl; [|done].
  by destruct (process_project hol s st1 (Project nB (Some 2) sB eB rB)).
Qed.

Lemma shortfall_count_nil (nm : string) : shortfall_count [] nm = 0.
Proof. reflexivity. Qed.

Lemma shortfall_count_cons (r : shortfall) (l : list shortfall) (nm : string) :
  shortfall_count (r :: l) nm
  = if decide (sf_name r = nm) then sf_required_days r - assigned_days r
    else shortfall_count l nm.
Proof.
  unfold shortfall_count. cbn [list_find]. case_decide; [done|].
  by destruct (list_find _ l) as [[??]|].
Qed.

Lemma calculate_spread_NoDup (start end_ r : Z) (hol : list Z) (s : settings) :
  window_ok start end_ →
  spread_days_evenly s = Some true →
  1 ≤ r → r < len (eligible_days start end_ hol s) →
  ∃ ds, calculate_working_days start end_ r hol s = Ok (r, true, ds)
        ∧ NoDup ds ∧ len ds = r.
Proof.
  intros Hw Hsp Hr HrE.
  pose proof (eligible_days_window start end_ hol s Hw) as HE.
  eexists. split_and!.
  - by apply calculate_spread.
  - apply StronglySorted_lt_NoDup.
    apply spread_days_sorted; [done..|]. apply eligible_days_sorted.
  - unfold len. rewrite length_fmap, length_seqZ. lia.
Qed.

Lemma calculate_days (start end_ r : Z) (hol : list Z) (s : settings)
    (c : Z) (b : bool) (ds : list Z) :
  calculate_working_days start end_ r hol s = Ok (c, b, ds) →
  ds = eligible_days start end_ hol s
  ∨ (default false (spread_days_evenly s) = true
     ∧ r < len (eligible_days start end_ hol s) ∧ len ds = Z.max r 0).
Proof.
  intros Hc. pose proof (calculate_Ok_window _ _ _ _ _ _ Hc) as Hw.
  rewrite calculate_working_days_unfold in Hc by done.
  destruct (default false (spread_days_evenly s)); simpl in Hc.
  - destruct (Z.ltb_spec r (len (eligible_days start end_ hol s))).
    + destruct (spread_days _ _) as [ds'|] eqn:Hsp; simpl in Hc; [|done].
      injection Hc as _ _ <-. right. split_and!; [done..|].
      by apply (spread_days_length _ _ _ Hsp).
    + left. by injection Hc as _ _ <-.
  - left. by injection Hc as _ _ <-.
Qed.

Lemma assign_days_count (ds : list Z) (nm : string) (r : Z)
    (led led' : gmap Z string) (cnt : Z) :
  NoDup ds → assign_days ds nm r led 0 = (led', cnt) →
  cnt = Z.min (Z.max r 0) (len (filter (λ d, led !! d = None) ds))
  ∧ ∀ d, led' !! d = None ↔
         led !! d = None
         ∧ d ∉ take (Z.to_nat r) (filter (λ d, led !! d = None) ds).
Proof.
  intros Hnd. rewrite assign_days_take by done.
  rewrite Z.sub_0_r. intros [= <- <-]. split.
  - unfold len. rewrite length_take. lia.
  - intros d. rewrite claim_all_lookup.
    case_decide; [split; [done|tauto]|tauto].
Qed.

Lemma filter_sub_length (P : Z → Prop) `{∀ x, Decision (P x)} (l k : list Z) :
  NoDup l → (∀ x, x ∈ l → x ∈ k) → len (filter P l) ≤ len (filter P k).
Proof.
  intros Hnd Hsub. unfold len. apply Nat2Z.inj_le, submseteq_length.
  apply NoDup_submseteq; [by apply NoDup_filter|].
  intros x. rewrite !list_elem_of_filter. intros [??]. split; auto.
Qed.

(** C7, as the code has it: in a run of two projects [A] (priority 1) and
    [B] (priority 2) the shortfall of [A] is what its own window lacks,
    whatever [B] is. So the shortfall of [A] is at most that of [B]
    whenever [A] has enough eligible days in its own window (any overlap),
    and whenever what [A] lacks is at most what [B] requires beyond its
    eligible days outside the window of [A]; the latter holds in
    particular when the window of [B] lies within that of [A] and [A]
    requires no more than [B]. Without the even spread these two cases are
    the only ones. *)
Theorem priority_precedence_two_projects (A B : project) (ps : list project)
    (hol : list Z) (s : settings) (ledger : gmap Z string)
    (shortfalls : list shortfall) :
  ps = [A; B] ∨ ps = [B; A] →
  priority A = Some 1 → priority B = Some 2 → name A ≠ name B →
  assign_project_dates (Config ps hol s) = Ok (ledger, shortfalls) →
  let lack := required_days A
              - len (eligible_days (start_date A) (end_date A) hol s) in
  let beyond := required_days B - len (days_outside A B hol s) in
  let sA := shortfall_count shortfalls (name A) in
  let sB := shortfall_count shortfalls (name B) in
  sA = Z.max 0 lack
  ∧ 0 ≤ sB
  ∧ (lack ≤ 0 → sA ≤ sB)
  ∧ (lack ≤ beyond → sA ≤ sB)
  ∧ (start_date A ≤ start_date B → end_date B ≤ end_date A →
     required_days A ≤ required_days B → sA ≤ sB)
  ∧ (default false (spread_days_evenly s) = false →
     (sA ≤ sB ↔ lack ≤ 0 ∨ lack ≤ beyond)).
Proof.
  intros Hps HA HB Hname.
  rewrite (run_two_projects A B ps hol s Hps HA HB).
  destruct (process_project hol s (∅, []) A) as [st1|] eqn:HpA; simpl; [|done].
  intros HpB.
  apply process_project_Ok in HpA as (cA & bA & dsA & cntA & HcA & HaA & HsfA).
  apply process_project_Ok in HpB as (cB & bB & dsB & cntB & HcB & HaB & HsfB).
  cbn [fst snd] in *.
  set (EA := eligible_days (start_date A) (end_date A) hol s).
  set (EB := eligible_days (start_date B) (end_date B) hol s).
  pose proof (StronglySorted_lt_NoDup _ (calculate_sorted _ _ _ _ _ _ _ _ HcA))
    as HndA.
  pose proof (StronglySorted_lt_NoDup _ (calculate_sorted _ _ _ _ _ _ _ _ HcB))
    as HndB.
  destruct (assign_days_count _ _ _ _ _ _ HndA HaA) as [HcntA HledA].
  destruct (assign_days_count _ _ _ _ _ _ HndB HaB) as [HcntB _].
  rewrite filter_all in HcntA, HledA by (intros; apply lookup_empty).
  set (free := filter (λ d, st1.1 !! d = None) dsB) in *.
  (* the two shortfall counts *)
  assert (HsA : shortfall_count shortfalls (name A) = Z.max 0 (required_days A - cntA)).
  { rewrite HsfB, HsfA.
    destruct (Z.ltb_spec cntA (required_days A));
      destruct (Z.ltb_spec cntB (required_days B)); cbn [app];
      rewrite ?shortfall_count_cons, ?shortfall_count_nil;
      rewrite ?decide_True by done; rewrite ?decide_False by done;
      rewrite ?shortfall_count_nil; simpl; lia. }
  assert (HsB : shortfall_count shortfalls (name B) = Z.max 0 (required_days B - cntB)).
  { rewrite HsfB, HsfA.
    destruct (Z.ltb_spec cntA (required_days A));
      destruct (Z.ltb_spec cntB (required_days B)); cbn [app];
      rewrite ?shortfall_count_cons, ?shortfall_count_nil;
      rewrite ?decide_False by done; rewrite ?decide_True by done;
      rewrite ?shortfall_count_nil; simpl; lia. }
  (* what the first project holds *)
  assert (HlenA : Z.min (Z.max (required_days A) 0) (len dsA)
                  = Z.min (Z.max (required_days A) 0) (len EA)).
  { destruct (calculate_days _ _ _ _ _ _ _ _ HcA) as [->|(_ & Hlt & Hlen)];
      [done|]. fold EA in Hlt. unfold len in *. lia. }
  assert (Hshort : len EA < required_days A → dsA = EA ∧ ∀ d, st1.1 !! d = None ↔ d ∉ EA).
  { intros Hlt.
    destruct (calculate_days _ _ _ _ _ _ _ _ HcA) as [->|(_ & Hlt' & _)];
      [|fold EA in Hlt'; lia].
    split; [done|]. intros d. rewrite HledA, lookup_empty.
    fold EA. rewrite take_ge by (unfold len in Hlt; lia). tauto. }
  (* the days of the second project *)
  assert (HsubB : ∀ d, d ∈ dsB → d ∈ EB).
  { by apply calculate_Ok in HcB as (_ & _ & Hsub). }
  assert (Hout : ∀ d, d ∈ EB → d ∉ EA ↔ ¬ (start_date A ≤ d ≤ end_date A)).
  { intros d. unfold EA, EB. rewrite !elem_of_eligible_days. tauto. }
  assert (Hfree : len EA < required_days A →
                  len free ≤ len (days_outside A B hol s)).
  { intros Hlt. destruct (Hshort Hlt) as [_ Hled]. unfold free, days_outside.
    fold EB.
    rewrite (filter_ext_in (λ d, st1.1 !! d = None)
               (λ d, ¬ (start_date A ≤ d ≤ end_date A)) dsB).
    - by apply filter_sub_length.
    - intros d Hd. rewrite Hled. by apply Hout, HsubB. }
  assert (Hfree_eq : default false (spread_days_evenly s) = false →
                     len EA < required_days A →
                     len free = len (days_outside A B hol s)).
  { intros Hoff Hlt. destruct (Hshort Hlt) as [_ Hled].
    destruct (calculate_days _ _ _ _ _ _ _ _ HcB) as [HdsB|(Hon & _)];
      [|congruence].
    unfold free, days_outside. fold EB. rewrite HdsB. fold EB. f_equal.
    apply filter_ext_in. intros d Hd. rewrite Hled. by apply Hout. }
  assert (Hnested : start_date A ≤ start_date B → end_date B ≤ end_date A →
                    len (days_outside A B hol s) = 0).
  { intros H1 H2. unfold days_outside. rewrite filter_none; [done|].
    intros d. rewrite elem_of_eligible_days. lia. }
  cbv zeta. fold EA.
  rewrite HsA, HsB, HcntA, HcntB, HlenA.
  assert (0 ≤ len EA) by (unfold len; lia).
  assert (0 ≤ len free) by (unfold len; lia).
  assert (0 ≤ len (days_outside A B hol s)) by (unfold len; lia).
  split_and!.
  - lia.
  - lia.
  - lia.
  - lia.
  - intros Hs He. specialize (Hnested Hs He). lia.
  - intros Hoff. specialize (Hfree_eq Hoff). lia.
Qed.

Lemma priority_precedence_two_projects_witness :
  shortfall_count [Shortfall "B" 3 5] "A" = Z.max 0 (3 - 5)
  ∧ shortfall_count [Shortfall "B" 3 5] "A"
    ≤ shortfall_count [Shortfall "B" 3 5] "B".
Proof.
  destruct (priority_precedence_two_projects
              (Project "A" (Some 1) 738886 738890 3)
              (Project "B" (Some 2) 738888 738893 5)
              [Project "B" (Some 2) 738888 738893 5;
               Project "A" (Some 1) 738886 738890 3]
              [] (Settings None None)
              (<[738893 := "B"]> (<[738890 := "B"]> (<[738889 := "B"]>
                 (<[738888 := "A"]> (<[738887 := "A"]>
                    (<[738886 := "A"]> ∅))))))
              [Shortfall "B" 3 5]) as (H1 & _ & H3 & _).
  - right. reflexivity.
  - reflexivity.
  - reflexivity.
  - discriminate.
  - vm_compute. reflexivity.
  - split; [exact H1|]. apply H3. vm_compute. discriminate.
Defined.

(** C7 fails: two projects with overlapping windows and 21 required days
    for 20 eligible days. The project of priority 1 has a week for 10
    days and a shortfall of 5; the project of priority 2 has four weeks
    for 11 days and no shortfall. *)
Lemma priority_precedence_fails :
  let A := Project "A" (Some 1) 738886 738890 10 in
  let B := Project "B" (Some 2) 738886 738913 11 in
  let s := Settings None None in
  ∃ ledger shortfalls,
    assign_project_dates (Config [A; B] [] s) = Ok (ledger, shortfalls)
    ∧ start_date B ≤ end_date A ∧ start_date A ≤ end_date B
    ∧ len (eligible_days 738886 738913 [] s)
      < required_days A + required_days B
    ∧ shortfall_count shortfalls (name A) = 5
    ∧ shortfall_count shortfalls (name B) = 0
    ∧ ¬ shortfall_count shortfalls (name A)
        ≤ shortfall_count shortfalls (name B).
Proof.
  intros A B s. eexists _, _. split; [vm_compute; reflexivity|].
  split_and!; try (vm_compute; done); vm_compute; intros H; apply H; done.
Qed.

(** * Further properties of the code *)

(** ** The calculator's summary values *)

(** Whenever the calculator returns, [is_sufficient] tells whether the
    window has at least [required_days] eligible days, and
    [available_days] is the number of eligible days unless the even spread
    cut the list down, in which case it is [required_days] (0 for a
    negative requirement). *)
Theorem calculate_summary (start end_ r : Z) (hol : list Z) (s : settings)
    (c : Z) (b : bool) (ds : list Z) :
  calculate_working_days start end_ r hol s = Ok (c, b, ds) →
  b = (r <=? len (eligible_days start end_ hol s))
  ∧ c = (if default false (spread_days_evenly s)
            && (r <? len (eligible_days start end_ hol s))
         then Z.max r 0
         else len (eligible_days start end_ hol s)).
Proof.
  intros Hc. pose proof (calculate_Ok_window _ _ _ _ _ _ Hc) as Hw.
  revert Hc. rewrite calculate_working_days_unfold by done.
  destruct (default false (spread_days_evenly s)); simpl.
  - destruct (Z.ltb_spec r (len (eligible_days start end_ hol s))).
    + destruct (spread_days _ _) as [ds'|] eqn:Hsp; simpl; [|done].
      intros [= <- <- <-]. apply spread_days_length in Hsp. rewrite Hsp.
      split; [|done].
      destruct (Z.leb_spec r (Z.max r 0)); [|lia].
      symmetry. apply Z.leb_le. lia.
    + simpl. by intros [= <- <- <-].
  - by intros [= <- <- <-].
Qed.

Lemma calculate_summary_witness :
  true = (3 <=? len (eligible_days 738886 738899 [738888]
                       (Settings None (Some true))))
  ∧ 3 = (if default false (spread_days_evenly (Settings None (Some true)))
            && (3 <? len (eligible_days 738886 738899 [738888]
                            (Settings None (Some true))))
         then Z.max 3 0
         else len (eligible_days 738886 738899 [738888]
                     (Settings None (Some true)))).
Proof.
  apply (calculate_summary 738886 738899 3 [738888]
           (Settings None (Some true)) 3 true [738886; 738890; 738895]).
  vm_compute. reflexivity.
Defined.

(** ** An empty window *)

(** A window that ends before it starts is no error: the calculator
    returns no days, whatever the settings and the holidays. *)
Theorem calculate_empty_window (start end_ r : Z) (hol : list Z)
    (s : settings) :
  end_ < start →
  calculate_working_days start end_ r hol s = Ok (0, r <=? 0, []).
Proof.
  intros Hlt. rewrite calculate_working_days_unfold by (by left).
  assert (HE : eligible_days start end_ hol s = []).
  { unfold eligible_days. by rewrite seqZ_nil by lia. }
  rewrite HE. change (len (@nil Z)) with 0.
  destruct (default false (spread_days_evenly s)); simpl; [|done].
  destruct (Z.ltb_spec r 0); [|done]. simpl.
  unfold spread_days, py_truediv. destruct (Z.eqb_spec r 0); [lia|]. simpl.
  by rewrite seqZ_nil by lia.
Qed.

Lemma calculate_empty_window_witness :
  calculate_working_days 738890 738886 (-2) [738888]
    (Settings (Some 3) (Some true))
  = Ok (0, true, []).
Proof.
  apply (calculate_empty_window 738890 738886 (-2) [738888]
           (Settings (Some 3) (Some true))).
  lia.
Defined.

(** ** Holidays and the window *)

(** With or without the even spread, every date the calculator returns
    lies in the window and is no holiday. *)
Theorem returned_days_in_window (start end_ r : Z) (hol : list Z)
    (s : settings) (c : Z) (b : bool) (ds : list Z) :
  calculate_working_days start end_ r hol s = Ok (c, b, ds) →
  ∀ d, d ∈ ds → start ≤ d ≤ end_ ∧ d ∉ hol.
Proof.
  intros Hc d Hd. apply calculate_Ok in Hc as (_ & _ & Hsub).
  specialize (Hsub d Hd). apply elem_of_eligible_days in Hsub.
  split; [lia|tauto].
Qed.

Lemma returned_days_in_window_witness :
  738886 ≤ 738895 ≤ 738899 ∧ 738895 ∉ [738888].
Proof.
  apply (returned_days_in_window 738886 738899 3 [738888]
           (Settings None (Some true)) 3 true [738886; 738890; 738895]).
  - vm_compute. reflexivity.
  - do 2 apply list_elem_of_further. apply list_elem_of_here.
Defined.

(** ** The start of the even spread *)

Lemma spread_index_zero (interval : float) : spread_index interval 0 = 0.
Proof.
  unfold spread_index, py_round, fmul.
  assert (Hz : (F2Q (float_of_Z 0) * F2Q interval == 0)%Q).
  { change (F2Q (float_of_Z 0)) with (inject_Z 0 * 2 ^ 0)%Q.
    change (inject_Z 0) with 0%Q. ring. }
  pose proof (round_float_zero _ Hz) as Hv.
  pose proof (Qrne_bounds (F2Q (round_float (F2Q (float_of_Z 0) * F2Q interval))))
    as [H1 H2].
  set (k := Qrne _) in *.
  assert (-1 < k < 1); [|lia].
  rewrite !Zlt_Qlt. change (inject_Z (-1)) with (-1)%Q.
  change (inject_Z 1) with 1%Q. split; lra.
Qed.

(** When the even spread cuts the list down, the first date it returns is
    the first eligible day of the window. The window starts on a date that
    [datetime] can hold and ends before 9999-12-31, so that the loop over
    the dates finishes. *)
Theorem spread_starts_at_first_day (start end_ r : Z) (hol : list Z)
    (s : settings) :
  valid_date start → end_ < datetime_max_ordinal →
  spread_days_evenly s = Some true →
  1 ≤ r → r < len (eligible_days start end_ hol s) →
  ∃ ds, calculate_working_days start end_ r hol s = Ok (r, true, ds)
        ∧ is_Some (ds !! 0%nat)
        ∧ ds !! 0%nat = eligible_days start end_ hol s !! 0%nat.
Proof.
  intros Hs He Hsp Hr HrE.
  pose proof (valid_window_ok start end_ Hs He) as Hw.
  eexists. split; [by apply calculate_spread|].
  rewrite seqZ_cons by lia. rewrite fmap_cons. cbn [lookup list_lookup].
  rewrite spread_index_zero. change (Z.to_nat 0) with 0%nat.
  split; [done|].
  destruct (eligible_days start end_ hol s) as [|d E] eqn:HEq.
  - unfold len in HrE. simpl in HrE. lia.
  - reflexivity.
Qed.

Lemma spread_starts_at_first_day_witness :
  ∃ ds, calculate_working_days 738887 738899 4 [738888]
          (Settings (Some 4) (Some true)) = Ok (4, true, ds)
        ∧ is_Some (ds !! 0%nat)
        ∧ ds !! 0%nat
          = eligible_days 738887 738899 [738888]
              (Settings (Some 4) (Some true)) !! 0%nat.
Proof.
  apply (spread_starts_at_first_day 738887 738899 4 [738888]
           (Settings (Some 4) (Some true))).
  - unfold valid_date, max_window_days. lia.
  - unfold datetime_max_ordinal. lia.
  - reflexivity.
  - lia.
  - vm_compute. reflexivity.
Defined.

(** ** The days a project claims *)

(** The inner loop gives a project the earliest days of its list that are
    still unclaimed, up to its requirement, and counts them: with [got]
    the first [required_days - assigned_count] unclaimed days of the list,
    the new ledger maps the days of [got] to the project and every other
    date as before, and the count grows by the length of [got]. *)
Theorem assign_days_earliest (ds : list Z) (nm : string) (r : Z)
    (led : gmap Z string) (c : Z) :
  NoDup ds →
  let got := take (Z.to_nat (r - c)) (filter (λ d, led !! d = None) ds) in
  ∃ led',
    assign_days ds nm r led c = (led', c + len got)
    ∧ ∀ d, led' !! d = if decide (d ∈ got) then Some nm else led !! d.
Proof.
  intros Hnd got. exists (claim_all nm got led). split.
  - by apply assign_days_take.
  - intros d. apply claim_all_lookup.
Qed.

Lemma assign_days_earliest_witness :
  ∃ led',
    assign_days [738886; 738887; 738888; 738889] "B" 2
      (<[738887 := "A"]> (<[738886 := "A"]> ∅)) 0
    = (led', 0 + len [738888; 738889])
    ∧ ∀ d, led' !! d
           = if decide (d ∈ [738888; 738889]) then Some "B"
             else (<[738887 := "A"]> (<[738886 := "A"]> ∅)
                     : gmap Z string) !! d.
Proof.
  exact (assign_days_earliest [738886; 738887; 738888; 738889] "B" 2
           (<[738887 := "A"]> (<[738886 := "A"]> ∅)) 0
           (NoDup_seqZ 738886 4)).
Defined.

(** ** Every required day is accounted for *)

Lemma assign_days_size (ds : list Z) (nm : string) (r : Z)
    (led : gmap Z string) (c : Z) (led' : gmap Z string) (c' : Z) :
  assign_days ds nm r led c = (led', c') →
  Z.of_nat (size led') = Z.of_nat (size led) + (c' - c) ∧ c' ≤ Z.max r c.
Proof.
  revert led c. induction ds as [|day rest IH]; intros led c.
  - intros [= <- <-]. lia.
  - cbn [assign_days]. destruct (Z.leb_spec r c).
    { intros [= <- <-]. lia. }
    destruct (decide (led !! day = None)) as [Hfree|Hused].
    + intros Hrec. apply IH in Hrec as [Hsz Hc].
      rewrite map_size_insert_None in Hsz by done. lia.
    + intros Hrec. apply IH in Hrec as [Hsz Hc]. lia.
Qed.

Lemma sumZ_cons (x : Z) (l : list Z) : sumZ (x :: l) = x + sumZ l.
Proof. reflexivity. Qed.

Lemma sumZ_app (l1 l2 : list Z) : sumZ (l1 ++ l2) = sumZ l1 + sumZ l2.
Proof. induction l1 as [|x l1 IH]; simpl; [done|]. unfold sumZ in *. simpl. lia. Qed.

Lemma sumZ_perm (l1 l2 : list Z) : l1 ≡ₚ l2 → sumZ l1 = sumZ l2.
Proof.
  induction 1 as [|x l1 l2 _ IH|x y l|l1 l2 l3 _ IH1 _ IH2];
    unfold sumZ in *; simpl; lia.
Qed.

Lemma process_project_account (hol : list Z) (s : settings)
    (st st' : gmap Z string * list shortfall) (p : project) :
  0 ≤ required_days p →
  process_project hol s st p = Ok st' →
  Z.of_nat (size st'.1) + sumZ (shortfall_gap <$> st'.2)
  = Z.of_nat (size st.1) + sumZ (shortfall_gap <$> st.2) + required_days p.
Proof.
  intros Hr Hp.
  apply process_project_Ok in Hp as (c & b & ds & cnt & _ & Ha & Hsf).
  apply assign_days_size in Ha as [Hsz Hcnt]. rewrite Hsf.
  destruct (Z.ltb_spec cnt (required_days p)).
  - rewrite fmap_app, sumZ_app. unfold sumZ at 2, shortfall_gap at 2.
    simpl. lia.
  - lia.
Qed.

Lemma project_loop_account (hol : list Z) (s : settings) (ps : list project)
    (st st' : gmap Z string * list shortfall) :
  (∀ p, p ∈ ps → 0 ≤ required_days p) →
  project_loop hol s ps st = Ok st' →
  Z.of_nat (size st'.1) + sumZ (shortfall_gap <$> st'.2)
  = Z.of_nat (size st.1) + sumZ (shortfall_gap <$> st.2)
    + sumZ (required_days <$> ps).
Proof.
  revert st. induction ps as [|p ps IH]; intros st Hreq.
  - intros [= <-]. unfold sumZ. simpl. lia.
  - cbn [project_loop]. rewrite fmap_cons, sumZ_cons.
    destruct (process_project hol s st p) as [st1|] eqn:Hp;
      cbn [mbind result_bind]; [|done].
    intros Hloop. apply IH in Hloop; [|intros; apply Hreq; by right].
    apply process_project_account in Hp; [|apply Hreq; left].
    lia.
Qed.

(** In a run of projects with non-negative requirements every required day
    is either a date of the ledger or part of the gap of a shortfall
    record: the requirements add up to the size of the ledger plus the
    gaps. *)
Theorem required_days_accounted (data : config) (ledger : gmap Z string)
    (shortfalls : list shortfall) :
  (∀ p, p ∈ projects data → 0 ≤ required_days p) →
  assign_project_dates data = Ok (ledger, shortfalls) →
  sumZ (required_days <$> projects data)
  = Z.of_nat (size ledger) + sumZ (shortfall_gap <$> shortfalls).
Proof.
  intros Hreq. unfold assign_project_dates.
  destruct (validate_priorities (projects data)) as [b|] eqn:Hv; simpl; [|done].
  destruct (sorted_by_priority (projects data)) as [sorted|] eqn:Hs;
    simpl; [|done].
  apply sorted_by_priority_perm in Hs.
  intros Hloop. apply project_loop_account in Hloop.
  - simpl in Hloop. rewrite map_size_empty in Hloop.
    rewrite <- (sumZ_perm _ _ (fmap_Permutation required_days _ _ Hs)).
    unfold sumZ in *. simpl in Hloop. lia.
  - intros p Hp. apply Hreq. by rewrite <- Hs.
Qed.

Lemma required_days_accounted_witness :
  sumZ (required_days <$> [Project "B" (Some 2) 738886 738890 4;
                           Project "A" (Some 1) 738888 738892 2])
  = Z.of_nat (size (<[738890 := "B"]> (<[738887 := "B"]> (<[738886 := "B"]>
                 (<[738889 := "A"]> (<[738888 := "A"]>
                    (∅ : gmap Z string)))))))
    + sumZ (shortfall_gap <$> [Shortfall "B" 3 4]).
Proof.
  apply (required_days_accounted
           (Config [Project "B" (Some 2) 738886 738890 4;
                    Project "A" (Some 1) 738888 738892 2]
                   [] (Settings None None))).
  - intros p Hp. apply elem_of_cons in Hp as [-> | Hp]; [simpl; lia|].
    apply list_elem_of_singleton in Hp as ->. simpl. lia.
  - vm_compute. reflexivity.
Defined.

(** ** The shortfall records *)

Lemma project_loop_shortfalls (hol : list Z) (s : settings)
    (ps : list project) (st st' : gmap Z string * list shortfall) :
  project_loop hol s ps st = Ok st' →
  ∃ new,
    st'.2 = st.2 ++ new
    ∧ sublist (sf_name <$> new) (name <$> ps)
    ∧ ∀ rec, rec ∈ new →
        0 ≤ assigned_days rec < sf_required_days rec
        ∧ ∃ p, p ∈ ps ∧ name p = sf_name rec
               ∧ required_days p = sf_required_days rec.
Proof.
  revert st. induction ps as [|p ps IH]; intros st.
  - intros [= <-]. exists []. rewrite app_nil_r. split_and!; [done..|].
    intros rec Hrec. by apply elem_of_nil in Hrec.
  - cbn [project_loop].
    destruct (process_project hol s st p) as [st1|] eqn:Hp;
      cbn [mbind result_bind]; [|done].
    intros Hloop. apply IH in Hloop as (new & Hnew & Hsub & Hwf).
    apply process_project_Ok in Hp as (c & b & ds & cnt & _ & Ha & Hsf).
    apply assign_days_spec in Ha as (_ & Hcnt & _).
    rewrite Hsf in Hnew. clear Hsf.
    destruct (Z.ltb_spec cnt (required_days p)).
    + exists (Shortfall (name p) cnt (required_days p) :: new).
      split_and!.
      * by rewrite Hnew, <- app_assoc.
      * rewrite !fmap_cons. by apply sublist_skip.
      * intros rec Hrec. apply elem_of_cons in Hrec as [->|Hrec].
        -- simpl. split; [lia|]. exists p. split_and!; [left|done..].
        -- destruct (Hwf rec Hrec) as [? (q & ? & ? & ?)].
           split; [done|]. exists q. split_and!; [by right|done..].
    + exists new. split_and!; [done| |].
      * rewrite fmap_cons. by apply sublist_cons.
      * intros rec Hrec. destruct (Hwf rec Hrec) as [? (q & ? & ? & ?)].
        split; [done|]. exists q. split_and!; [by right|done..].
Qed.

(** The shortfall list of a run has at most one record per project, in
    the order of the priorities; a record belongs to a project of the
    input, carries its requirement, and its assigned count is at least 0
    and below the requirement. *)
Theorem shortfall_records (data : config) (ledger : gmap Z string)
    (shortfalls : list shortfall) :
  assign_project_dates data = Ok (ledger, shortfalls) →
  ∃ sorted,
    sorted_by_priority (projects data) = Ok sorted
    ∧ sublist (sf_name <$> shortfalls) (name <$> sorted)
    ∧ ∀ rec, rec ∈ shortfalls →
        0 ≤ assigned_days rec < sf_required_days rec
        ∧ ∃ p, p ∈ projects data ∧ name p = sf_name rec
               ∧ required_days p = sf_required_days rec.
Proof.
  unfold assign_project_dates.
  destruct (validate_priorities (projects data)) as [b|]; simpl; [|done].
  destruct (sorted_by_priority (projects data)) as [sorted|] eqn:Hs;
    simpl; [|done].
  intros Hloop. apply project_loop_shortfalls in Hloop as (new & Hnew & Hsub & Hwf).
  simpl in Hnew. subst new. exists sorted. split_and!; [done..|].
  intros rec Hrec. destruct (Hwf rec Hrec) as [? (q & Hq & ? & ?)].
  split; [done|]. exists q.
  rewrite (sorted_by_priority_perm _ _ Hs) in Hq. done.
Qed.

Lemma shortfall_records_witness :
  ∃ sorted,
    sorted_by_priority [Project "B" (Some 2) 738886 738890 4;
                        Project "A" (Some 1) 738888 738892 2] = Ok sorted
    ∧ sublist (sf_name <$> [Shortfall "B" 3 4]) (name <$> sorted)
    ∧ ∀ rec, rec ∈ [Shortfall "B" 3 4] →
        0 ≤ assigned_days rec < sf_required_days rec
        ∧ ∃ p, p ∈ [Project "B" (Some 2) 738886 738890 4;
                    Project "A" (Some 1) 738888 738892 2]
               ∧ name p = sf_name rec
               ∧ required_days p = sf_required_days rec.
Proof.
  apply (shortfall_records
           (Config [Project "B" (Some 2) 738886 738890 4;
                    Project "A" (Some 1) 738888 738892 2]
                   [] (Settings None None))
           (<[738890 := "B"]> (<[738887 := "B"]> (<[738886 := "B"]>
              (<[738889 := "A"]> (<[738888 := "A"]> ∅)))))).
  vm_compute. reflexivity.
Defined.

(** ** Shortfalls without the even spread *)




(** ** A project that requires nothing *)

(** A project whose requirement is 0 or negative claims no date and gets
    no shortfall record: its iteration leaves the ledger and the list of
    shortfalls as they were. *)
Theorem nothing_for_nonpositive_requirement (hol : list Z) (s : settings)
    (st st' : gmap Z string * list shortfall) (p : project) :
  required_days p ≤ 0 →
  process_project hol s st p = Ok st' →
  st' = st.
Proof.
  intros Hr Hp.
  apply process_project_Ok in Hp as (c & b & ds & cnt & _ & Ha & Hsf).
  assert (Hstop : assign_days ds (name p) (required_days p) st.1 0 = (st.1, 0)).
  { destruct ds as [|d ds]; [done|]. cbn [assign_days].
    by destruct (Z.leb_spec (required_days p) 0); [|lia]. }
  rewrite Hstop in Ha. injection Ha as H1 <-.
  destruct (Z.ltb_spec 0 (required_days p)); [lia|].
  destruct st, st'. simpl in *. congruence.
Qed.

Lemma nothing_for_nonpositive_requirement_witness :
  ((<[738886 := "A"]> ∅, [Shortfall "A" 1 2])
     : gmap Z string * list shortfall)
  = (<[738886 := "A"]> ∅, [Shortfall "A" 1 2]).
Proof.
  apply (nothing_for_nonpositive_requirement [] (Settings None (Some true))
           (<[738886 := "A"]> ∅, [Shortfall "A" 1 2])
           (<[738886 := "A"]> ∅, [Shortfall "A" 1 2])
           (Project "B" (Some 2) 738886 738890 (-3))).
  - simpl. lia.
  - vm_compute. reflexivity.
Defined.

(** ** A week without working days *)

Lemma calculate_no_eligible_days (start end_ r : Z) (hol : list Z)
    (s : settings) :
  window_ok start end_ →
  eligible_days start end_ hol s = [] →
  calculate_working_days start end_ r hol s = Ok (0, r <=? 0, []).
Proof.
  intros Hw HE. rewrite calculate_working_days_unfold, HE by done.
  change (len (@nil Z)) with 0.
  destruct (default false (spread_days_evenly s)); simpl; [|done].
  destruct (Z.ltb_spec r 0); [|done]. simpl.
  unfold spread_days, py_truediv. destruct (Z.eqb_spec r 0); [lia|]. simpl.
  by rewrite seqZ_nil by lia.
Qed.

Lemma project_loop_no_days (hol : list Z) (s : settings) (ps : list project)
    (st : gmap Z string * list shortfall) :
  (∀ p, p ∈ ps → window_ok (start_date p) (end_date p)) →
  (∀ p, p ∈ ps → eligible_days (start_date p) (end_date p) hol s = []) →
  project_loop hol s ps st
  = Ok (st.1,
        st.2 ++ ((λ p, Shortfall (name p) 0 (required_days p))
                 <$> filter (λ p, 0 < required_days p) ps)).
Proof.
  revert st. induction ps as [|p ps IH]; intros st Hwin HE.
  - simpl. rewrite app_nil_r. by destruct st.
  - cbn [project_loop]. unfold process_project at 1.
    rewrite calculate_no_eligible_days by (apply Hwin || apply HE; left).
    cbn [mbind result_bind snd assign_days].
    rewrite IH by (intros; apply Hwin || apply HE; by right). cbn [fst snd].
    rewrite filter_cons.
    destruct (Z.ltb_spec 0 (required_days p)).
    + rewrite decide_True by done. rewrite fmap_cons.
      by rewrite <- app_assoc.
    + by rewrite decide_False by lia.
Qed.

(** With [working_days_per_week] 0, or -5 and below, no day is eligible:
    a run whose priorities are valid and whose windows let the loop over
    the dates finish (a window that is empty, or that starts on a date of
    [datetime] and ends before 9999-12-31) returns an empty ledger and, in
    the order of the priorities, a record with no assigned day for every
    project that requires at least one day. *)
Theorem run_without_working_days (data : config) :
  (∀ p, p ∈ projects data → window_ok (start_date p) (end_date p)) →
  default 5 (working_days_per_week (cfg_settings data)) = 0
  ∨ default 5 (working_days_per_week (cfg_settings data)) ≤ -5 →
  validate_priorities (projects data) = Ok true →
  ∃ sorted,
    sorted_by_priority (projects data) = Ok sorted
    ∧ assign_project_dates data
      = Ok (∅, (λ p, Shortfall (name p) 0 (required_days p))
               <$> filter (λ p, 0 < required_days p) sorted).
Proof.
  intros Hwin Hw Hv.
  destruct (sorted_by_priority_order _ _ Hv) as (sorted & Hs & Hperm & _).
  exists sorted. split; [done|].
  unfold assign_project_dates. rewrite Hv, Hs. cbn [mbind result_bind].
  rewrite project_loop_no_days; [done| |].
  { intros p Hp. apply Hwin. by rewrite <- Hperm. }
  intros p _. rewrite eligible_days_filter, allowed_weekdays_of_eq.
  set (w := default 5 (working_days_per_week (cfg_settings data))) in *.
  replace (if w <? 0 then Z.max (w + 5) 0 else Z.min w 5) with 0
    by (destruct (Z.ltb_spec w 0); lia).
  apply filter_none. intros d _ [Hin _].
  apply elem_of_first_weekdays in Hin. lia.
Qed.

Lemma run_without_working_days_witness :
  ∃ sorted,
    sorted_by_priority [Project "B" (Some 2) 738886 738890 4;
                        Project "C" (Some 3) 738886 738890 0;
                        Project "A" (Some 1) 738888 738892 2] = Ok sorted
    ∧ assign_project_dates
        (Config [Project "B" (Some 2) 738886 738890 4;
                 Project "C" (Some 3) 738886 738890 0;
                 Project "A" (Some 1) 738888 738892 2]
                [] (Settings (Some 0) (Some true)))
      = Ok (∅, (λ p, Shortfall (name p) 0 (required_days p))
               <$> filter (λ p, 0 < required_days p) sorted).
Proof.
  apply (run_without_working_days
           (Config [Project "B" (Some 2) 738886 738890 4;
                    Project "C" (Some 3) 738886 738890 0;
                    Project "A" (Some 1) 738888 738892 2]
                   [] (Settings (Some 0) (Some true)))).
  - intros p Hp. right. unfold datetime_max_ordinal.
    apply elem_of_cons in Hp as [-> | Hp]; [simpl; lia|].
    apply elem_of_cons in Hp as [-> | Hp]; [simpl; lia|].
    apply list_elem_of_singleton in Hp as ->. simpl. lia.
  - left. reflexivity.
  - vm_compute. reflexivity.
Defined.

(** ** The exceptions of a run *)

Lemma calculate_Raise (start end_ r : Z) (hol : list Z) (s : settings)
    (e : exn) :
  valid_date start → valid_date end_ →
  calculate_working_days start end_ r hol s = Raise e →
  (e = ZeroDivisionError ∧ spread_days_evenly s = Some true ∧ r = 0
   ∧ eligible_days start end_ hol s ≠ [])
  ∨ (e = OverflowError ∧ start ≤ end_ ∧ end_ = datetime_max_ordinal).
Proof.
  intros Hs He Hc.
  destruct (window_ok_cases start end_) as [Hw|Hw].
  2:{ right. rewrite calculate_overflow in Hc by done. injection Hc as <-.
      split; [done|].
      unfold window_ok, valid_date, max_window_days, datetime_max_ordinal in *.
      lia. }
  left.
  destruct (default false (spread_days_evenly s)) eqn:Hsp;
    [|rewrite calculate_no_spread in Hc by done; done].
  assert (Hs' : spread_days_evenly s = Some true)
    by (destruct (spread_days_evenly s) as [[]|]; done).
  destruct (decide (r = 0)) as [->|Hr].
  2:{ destruct (calculate_returns start end_ r hol s Hw (or_intror Hr))
        as [res Hres]. congruence. }
  rewrite calculate_working_days_unfold, Hsp in Hc by done.
  destruct (eligible_days start end_ hol s) as [|d E]; [done|].
  cbn in Hc. injection Hc as <-. done.
Qed.

Lemma project_loop_Raise (hol : list Z) (s : settings) (ps : list project)
    (st : gmap Z string * list shortfall) (e : exn) :
  (∀ p, p ∈ ps → valid_date (start_date p) ∧ valid_date (end_date p)) →
  project_loop hol s ps st = Raise e →
  (e = ZeroDivisionError ∧ spread_days_evenly s = Some true
   ∧ ∃ p, p ∈ ps ∧ required_days p = 0
          ∧ eligible_days (start_date p) (end_date p) hol s ≠ [])
  ∨ (e = OverflowError
     ∧ ∃ p, p ∈ ps ∧ start_date p ≤ end_date p
            ∧ end_date p = datetime_max_ordinal).
Proof.
  revert st. induction ps as [|p ps IH]; intros st Hvalid; [done|].
  cbn [project_loop].
  destruct (process_project hol s st p) as [st1|e1] eqn:Hp;
    cbn [mbind result_bind].
  - intros Hloop.
    apply IH in Hloop
      as [(-> & Hsp & q & Hq & Hr & HE)|(-> & q & Hq & Hse & He)];
      [| |intros; apply Hvalid; by right].
    + left. split_and!; [done..|]. exists q. split_and!; [by right|done..].
    + right. split; [done|]. exists q. split_and!; [by right|done..].
  - intros [= ->]. unfold process_project in Hp.
    destruct (calculate_working_days _ _ _ _ _) as [[[c b] ds]|e1] eqn:Hc.
    + simpl in Hp. by destruct (assign_days _ _ _ _ _).
    + simpl in Hp. injection Hp as ->.
      destruct (Hvalid p ltac:(left)) as [Hs He].
      apply calculate_Raise in Hc
        as [(-> & Hsp & Hr & HE)|(-> & Hse & Hmax)]; [| |done..].
      * left. split_and!; [done..|]. exists p. split_and!; [left|done..].
      * right. split; [done|]. exists p. split_and!; [left|done..].
Qed.

(** A loop over projects whose windows let the loop over the dates finish
    only fails by the division. *)
Lemma project_loop_Raise_window (hol : list Z) (s : settings)
    (ps : list project) (st : gmap Z string * list shortfall) (e : exn) :
  (∀ p, p ∈ ps → window_ok (start_date p) (end_date p)) →
  project_loop hol s ps st = Raise e →
  spread_days_evenly s = Some true ∧ ∃ p, p ∈ ps ∧ required_days p = 0.
Proof.
  revert st. induction ps as [|p ps IH]; intros st Hwin; [done|].
  cbn [project_loop].
  destruct (process_project hol s st p) as [st1|e1] eqn:Hp;
    cbn [mbind result_bind].
  - intros Hloop.
    apply IH in Hloop as (Hsp & q & Hq & Hr); [|intros; apply Hwin; by right].
    split; [done|]. exists q. split; [by right|done].
  - intros _. unfold process_project in Hp.
    destruct (calculate_working_days _ _ _ _ _) as [[[c b] ds]|e2] eqn:Hc.
    + simpl in Hp. by destruct (assign_days _ _ _ _ _).
    + pose proof (Hwin p ltac:(left)) as Hw.
      destruct (default false (spread_days_evenly s)) eqn:Hsp;
        [|rewrite calculate_no_spread in Hc by done; done].
      split; [by destruct (spread_days_evenly s) as [[]|]|].
      exists p. split; [left|].
      destruct (decide (required_days p = 0)) as [|Hr]; [done|].
      destruct (calculate_returns _ _ _ hol s Hw (or_intror Hr))
        as [res Hres]. congruence.
Qed.

Lemma validate_priorities_cases (ps : list project) :
  validate_priorities ps = Ok true
  ∨ validate_priorities ps
    = Raise (ValueError
               (merge_sort Z.le ((λ p, default 0 (priority p)) <$> ps))
               (length ps)).
Proof. unfold validate_priorities. destruct (decide _); [by left|by right]. Qed.

(** On dates that [datetime] can hold a run raises either the
    [ValueError] of the validation, or after a successful validation
    [ZeroDivisionError] or [OverflowError]: the former only with the even
    spread enabled and a project that requires 0 days and has an eligible
    day, the latter only with a project whose window is not empty and ends
    on 9999-12-31. In particular no lookup of a missing priority and no
    index out of range ever escapes. *)
Theorem run_raises_only (data : config) (e : exn) :
  (∀ p, p ∈ projects data →
        valid_date (start_date p) ∧ valid_date (end_date p)) →
  assign_project_dates data = Raise e →
  (validate_priorities (projects data) = Raise e
   ∧ e = ValueError
           (merge_sort Z.le
              ((λ p, default 0 (priority p)) <$> projects data))
           (length (projects data)))
  ∨ (validate_priorities (projects data) = Ok true
     ∧ e = ZeroDivisionError
     ∧ spread_days_evenly (cfg_settings data) = Some true
     ∧ ∃ p, p ∈ projects data ∧ required_days p = 0
            ∧ eligible_days (start_date p) (end_date p) (holidays data)
                (cfg_settings data) ≠ [])
  ∨ (validate_priorities (projects data) = Ok true
     ∧ e = OverflowError
     ∧ ∃ p, p ∈ projects data ∧ start_date p ≤ end_date p
            ∧ end_date p = datetime_max_ordinal).
Proof.
  intros Hvalid. unfold assign_project_dates.
  destruct (validate_priorities (projects data)) as [b|e0] eqn:Hv;
    cbn [mbind result_bind].
  - destruct (sorted_by_priority_order _ _ Hv) as (sorted & Hs & Hperm & _).
    rewrite Hs. cbn [mbind result_bind]. intros Hloop. right.
    assert (Hb : Ok b = Ok true).
    { destruct (validate_priorities_cases (projects data)) as [H|H];
        congruence. }
    apply project_loop_Raise in Hloop
      as [(-> & Hsp & q & Hq & Hr & HE)|(-> & q & Hq & Hse & Hmax)].
    + left. split_and!; [done..|]. exists q. rewrite Hperm in Hq. done.
    + right. split_and!; [done..|]. exists q. rewrite Hperm in Hq. done.
    + intros p Hp. apply Hvalid. by rewrite <- Hperm.
  - intros [= ->]. left. split; [done|].
    destruct (validate_priorities_cases (projects data)) as [H|H];
      congruence.
Qed.

Lemma run_raises_only_witness :
  (validate_priorities [Project "A" (Some 1) 3652055 3652059 2]
     = Raise OverflowError
   ∧ OverflowError
     = ValueError
         (merge_sort Z.le
            ((λ p, default 0 (priority p))
             <$> [Project "A" (Some 1) 3652055 3652059 2]))
         (length [Project "A" (Some 1) 3652055 3652059 2]))
  ∨ (validate_priorities [Project "A" (Some 1) 3652055 3652059 2] = Ok true
     ∧ OverflowError = ZeroDivisionError
     ∧ spread_days_evenly (Settings None None) = Some true
     ∧ ∃ p, p ∈ [Project "A" (Some 1) 3652055 3652059 2]
            ∧ required_days p = 0
            ∧ eligible_days (start_date p) (end_date p) []
                (Settings None None) ≠ [])
  ∨ (validate_priorities [Project "A" (Some 1) 3652055 3652059 2] = Ok true
     ∧ OverflowError = OverflowError
     ∧ ∃ p, p ∈ [Project "A" (Some 1) 3652055 3652059 2]
            ∧ start_date p ≤ end_date p
            ∧ end_date p = datetime_max_ordinal).
Proof.
  apply (run_raises_only
           (Config [Project "A" (Some 1) 3652055 3652059 2] []
                   (Settings None None))).
  - intros p Hp. apply list_elem_of_singleton in Hp as ->.
    unfold valid_date, max_window_days. simpl. lia.
  - vm_compute. reflexivity.
Defined.

(** After a successful validation a run returns its ledger and
    shortfalls whenever every window lets the loop over the dates finish
    (a window that is empty, or that starts on a date of [datetime] and
    ends before 9999-12-31) and the even spread is off or no project
    requires exactly 0 days. *)
Theorem run_returns (data : config) :
  (∀ p, p ∈ projects data → window_ok (start_date p) (end_date p)) →
  validate_priorities (projects data) = Ok true →
  default false (spread_days_evenly (cfg_settings data)) = false
  ∨ (∀ p, p ∈ projects data → required_days p ≠ 0) →
  ∃ ledger shortfalls,
    assign_project_dates data = Ok (ledger, shortfalls).
Proof.
  intros Hvalid Hv Hcase.
  destruct (assign_project_dates data) as [[ledger shortfalls]|e] eqn:Hrun;
    [by eauto|].
  exfalso.
  unfold assign_project_dates in Hrun. rewrite Hv in Hrun.
  cbn [mbind result_bind] in Hrun.
  destruct (sorted_by_priority_order _ _ Hv) as (sorted & Hs & Hperm & _).
  rewrite Hs in Hrun. cbn [mbind result_bind] in Hrun.
  apply project_loop_Raise_window in Hrun as (Hsp & q & Hq & Hr).
  - destruct Hcase as [Hoff|Hreq].
    + rewrite Hsp in Hoff. done.
    + apply (Hreq q); [by rewrite <- Hperm|done].
  - intros p Hp. apply Hvalid. by rewrite <- Hperm.
Qed.

Lemma run_returns_witness :
  ∃ ledger shortfalls,
    assign_project_dates
      (Config [Project "B" (Some 2) 738886 738890 4;
               Project "A" (Some 1) 738888 738892 2]
              [738889] (Settings (Some 4) (Some true)))
    = Ok (ledger, shortfalls).
Proof.
  apply (run_returns
           (Config [Project "B" (Some 2) 738886 738890 4;
                    Project "A" (Some 1) 738888 738892 2]
                   [738889] (Settings (Some 4) (Some true)))).
  - intros p Hp. right. unfold datetime_max_ordinal.
    apply elem_of_cons in Hp as [-> | Hp]; [simpl; lia|].
    apply list_elem_of_singleton in Hp as ->. simpl. lia.
  - vm_compute. reflexivity.
  - right. intros p Hp.
    apply elem_of_cons in Hp as [-> | Hp]; [simpl; lia|].
    apply list_elem_of_singleton in Hp as ->. simpl. lia.
Defined.

(** ** The order of the projects in the input *)

Lemma merge_sort_perm (l1 l2 : list Z) :
  l1 ≡ₚ l2 → merge_sort Z.le l1 = merge_sort Z.le l2.
Proof.
  intros Hp. apply (StronglySorted_unique Z.le).
  - apply StronglySorted_merge_sort; apply _.
  - apply StronglySorted_merge_sort; apply _.
  - by rewrite !merge_sort_Permutation.
Qed.

Lemma validate_priorities_perm (ps ps' : list project) :
  ps ≡ₚ ps' → validate_priorities ps = validate_priorities ps'.
Proof.
  intros Hp. unfold validate_priorities, len.
  rewrite (merge_sort_perm _ (map (λ p, default 0 (priority p)) ps')).
  - by rewrite (Permutation_length Hp).
  - change (map ?f ?l) with (f <$> l). by rewrite Hp.
Qed.

Lemma NoDup_fmap_inj_on {A B} (f : A → B) (l : list A) (x y : A) :
  NoDup (f <$> l) → x ∈ l → y ∈ l → f x = f y → x = y.
Proof.
  induction l as [|a l IH]; intros Hnd Hx Hy Hf.
  - by apply elem_of_nil in Hx.
  - rewrite fmap_cons in Hnd. apply NoDup_cons in Hnd as [Hnotin Hnd].
    apply elem_of_cons in Hx as [->|Hx]; apply elem_of_cons in Hy as [->|Hy].
    + done.
    + exfalso. apply Hnotin. rewrite Hf. by apply list_elem_of_fmap_2.
    + exfalso. apply Hnotin. rewrite <- Hf. by apply list_elem_of_fmap_2.
    + by apply IH.
Qed.

Lemma StronglySorted_of_fmap {A} (f : A → Z) (l : list A) :
  StronglySorted Z.le (f <$> l) →
  StronglySorted (λ x y, f x ≤ f y) l.
Proof.
  induction l as [|a l IH]; [constructor|].
  rewrite fmap_cons. intros Hs. apply StronglySorted_inv in Hs as [Hs Ha].
  constructor; [by apply IH|].
  apply Forall_forall. intros y Hy. rewrite Forall_forall in Ha.
  apply Ha. by apply list_elem_of_fmap_2.
Qed.

Lemma sorted_by_priority_unique (ps ps' : list project) (b : bool) :
  ps ≡ₚ ps' → validate_priorities ps = Ok b →
  sorted_by_priority ps = sorted_by_priority ps'.
Proof.
  intros Hp Hv.
  assert (Hv' : validate_priorities ps' = Ok b)
    by (by rewrite <- (validate_priorities_perm ps ps' Hp)).
  destruct (sorted_by_priority_order _ _ Hv) as (l & -> & Hl & Hk).
  destruct (sorted_by_priority_order _ _ Hv') as (l' & -> & Hl' & Hk').
  f_equal.
  assert (Hkeys : ∀ k : list project,
            priority <$> k = Some <$> seqZ 1 (len ps) →
            (λ p, default 0 (priority p)) <$> k = seqZ 1 (len ps)).
  { intros k Hkk.
    change (λ p, default 0 (priority p)) with (default 0 ∘ priority).
    rewrite list_fmap_compose, Hkk, <- list_fmap_compose.
    apply list_fmap_id. }
  assert (Hlen : len ps' = len ps)
    by (unfold len; by rewrite (Permutation_length Hp)).
  rewrite Hlen in Hk'.
  apply (StronglySorted_unique_strong
           (λ x y, default 0 (priority x) ≤ default 0 (priority y))).
  - intros x y Hx Hy H1 H2.
    apply (NoDup_fmap_inj_on (λ p, default 0 (priority p)) l).
    + rewrite (Hkeys l Hk). apply NoDup_seqZ.
    + done.
    + rewrite Hl, Hp, <- Hl'. done.
    + lia.
  - apply StronglySorted_of_fmap. rewrite (Hkeys l Hk).
    apply StronglySorted_le_seqZ.
  - apply StronglySorted_of_fmap. rewrite (Hkeys l' Hk').
    apply StronglySorted_le_seqZ.
  - by rewrite Hl, Hl', Hp.
Qed.

(** The order in which the input lists the projects does not matter: two
    inputs with the same projects in a different order, the same holidays
    and the same settings give the same result, the same ledger and
    shortfalls or the same exception. *)
Theorem run_independent_of_listing (ps ps' : list project) (hol : list Z)
    (s : settings) :
  ps ≡ₚ ps' →
  assign_project_dates (Config ps hol s)
  = assign_project_dates (Config ps' hol s).
Proof.
  intros Hp. unfold assign_project_dates.
  cbn [projects holidays cfg_settings].
  rewrite <- (validate_priorities_perm ps ps' Hp).
  destruct (validate_priorities ps) as [b|e] eqn:Hv; [|done].
  cbn [mbind result_bind].
  by rewrite (sorted_by_priority_unique ps ps' b Hp Hv).
Qed.

Lemma run_independent_of_listing_witness :
  assign_project_dates
    (Config [Project "B" (Some 2) 738886 738890 4;
             Project "A" (Some 1) 738888 738892 2]
            [738889] (Settings None None))
  = assign_project_dates
      (Config [Project "A" (Some 1) 738888 738892 2;
               Project "B" (Some 2) 738886 738890 4]
              [738889] (Settings None None)).
Proof.
  apply (run_independent_of_listing
           [Project "B" (Some 2) 738886 738890 4;
            Project "A" (Some 1) 738888 738892 2]
           [Project "A" (Some 1) 738888 738892 2;
            Project "B" (Some 2) 738886 738890 4]
           [738889] (Settings None None)).
  apply Permutation_swap.
Defined.

(** ** The order of the returned days *)

(** On dates that [datetime] can hold the calculator returns its days in
    strictly increasing order, with or without the even spread: the list
    is chronological and has no date twice. *)
Theorem returned_days_increasing (start end_ r : Z) (hol : list Z)
    (s : settings) (c : Z) (b : bool) (ds : list Z) :
  valid_date start → valid_date end_ →
  calculate_working_days start end_ r hol s = Ok (c, b, ds) →
  StronglySorted Z.lt ds ∧ NoDup ds.
Proof.
  intros Hs He Hc.
  pose proof (calculate_sorted _ _ _ _ _ _ _ _ Hc) as Hsorted.
  split; [done|]. by apply StronglySorted_lt_NoDup.
Qed.

Lemma returned_days_increasing_witness :
  StronglySorted Z.lt [738886; 738890; 738895]
  ∧ NoDup [738886; 738890; 738895].
Proof.
  apply (returned_days_increasing 738886 738899 3 [738888]
           (Settings None (Some true)) 3 true).
  - unfold valid_date, max_window_days. lia.
  - unfold valid_date, max_window_days. lia.
  - vm_compute. reflexivity.
Defined.

(** ** A project on an empty ledger *)

(** The first project of a run, which finds the ledger empty, claims the
    first [required_days] of the days the calculator returns, all of them
    if there are fewer; it gets a shortfall record exactly when
    [is_sufficient] is false, and the record then carries
    [available_days] as its assigned count. *)
Theorem first_project_outcome (hol : list Z) (s : settings)
    (sf : list shortfall) (p : project)
    (st' : gmap Z string * list shortfall) :
  valid_date (start_date p) → valid_date (end_date p) →
  process_project hol s (∅, sf) p = Ok st' →
  ∃ c b ds,
    calculate_working_days (start_date p) (end_date p) (required_days p)
      hol s = Ok (c, b, ds)
    ∧ st'.1 = claim_all (name p) (take (Z.to_nat (required_days p)) ds) ∅
    ∧ st'.2 = (if b then sf
               else sf ++ [Shortfall (name p) c (required_days p)]).
Proof.
  intros Hs He Hp.
  apply process_project_Ok in Hp as (c & b & ds & cnt & Hc & Ha & Hsf).
  exists c, b, ds. split; [done|].
  pose proof (calculate_sorted _ _ _ _ _ _ _ _ Hc) as Hsorted.
  apply StronglySorted_lt_NoDup in Hsorted.
  apply calculate_Ok in Hc as (-> & -> & _).
  cbn [fst snd] in *.
  rewrite assign_days_take in Ha by done.
  rewrite filter_all in Ha by (intros; apply lookup_empty).
  rewrite Z.sub_0_r in Ha. injection Ha as <- <-.
  split; [done|]. rewrite Hsf. unfold len. rewrite length_take.
  destruct (Z.leb_spec (required_days p) (Z.of_nat (length ds)));
    destruct (Z.ltb_spec
                (0 + Z.of_nat (Z.to_nat (required_days p) `min` length ds))
                (required_days p)); try done; try lia.
  do 3 f_equal. lia.
Qed.

Lemma first_project_outcome_witness :
  ∃ c b ds,
    calculate_working_days 738886 738890 7 [738888] (Settings None None)
      = Ok (c, b, ds)
    ∧ (<[738890 := "A"]> (<[738889 := "A"]> (<[738887 := "A"]>
         (<[738886 := "A"]> ∅))) : gmap Z string)
      = claim_all "A" (take (Z.to_nat 7) ds) ∅
    ∧ [Shortfall "A" 4 7]
      = (if b then [] else [] ++ [Shortfall "A" c 7]).
Proof.
  assert (Hstep : process_project [738888] (Settings None None) (∅, [])
                    (Project "A" (Some 1) 738886 738890 7)
                  = Ok (<[738890 := "A"]> (<[738889 := "A"]>
                          (<[738887 := "A"]> (<[738886 := "A"]> ∅))),
                        [Shortfall "A" 4 7]))
    by (vm_compute; reflexivity).
  assert (Hs : valid_date 738886)
    by (unfold valid_date, max_window_days; lia).
  assert (He : valid_date 738890)
    by (unfold valid_date, max_window_days; lia).
  exact (first_project_outcome [738888] (Settings None None) []
           (Project "A" (Some 1) 738886 738890 7) _ Hs He Hstep).
Defined.

(** ** The days of each project *)

Lemma dates_of_insert (nm nm' : string) (led : gmap Z string) (d : Z) :
  led !! d = None →
  dates_of nm' (<[d := nm]> led)
  = dates_of nm' led + (if decide (nm = nm') then 1 else 0).
Proof.
  intros Hfree. unfold dates_of. destruct (decide (nm = nm')) as [->|Hne].
  - rewrite map_filter_insert_True by done.
    rewrite map_size_insert_None; [lia|].
    apply map_lookup_filter_None. by left.
  - rewrite map_filter_insert_False by done.
    rewrite delete_id by done. lia.
Qed.

Lemma assign_days_dates_of (ds : list Z) (nm : string) (r : Z)
    (led : gmap Z string) (c : Z) (led' : gmap Z string) (c' : Z)
    (nm' : string) :
  assign_days ds nm r led c = (led', c') →
  dates_of nm' led'
  = dates_of nm' led + (if decide (nm = nm') then c' - c else 0).
Proof.
  revert led c. induction ds as [|day rest IH]; intros led c.
  - intros [= <- <-]. case_decide; lia.
  - cbn [assign_days]. destruct (Z.leb_spec r c).
    { intros [= <- <-]. case_decide; lia. }
    destruct (decide (led !! day = None)) as [Hfree|Hused].
    + intros Hrec. apply IH in Hrec. rewrite Hrec.
      rewrite dates_of_insert by done. case_decide; lia.
    + intros Hrec. by apply IH in Hrec.
Qed.

Lemma project_loop_account_name (hol : list Z) (s : settings)
    (ps : list project) (st st' : gmap Z string * list shortfall)
    (nm : string) :
  (∀ p, p ∈ ps → 0 ≤ required_days p) →
  project_loop hol s ps st = Ok st' →
  dates_of nm st'.1
  + sumZ (shortfall_gap <$> filter (λ r, sf_name r = nm) st'.2)
  = dates_of nm st.1
    + sumZ (shortfall_gap <$> filter (λ r, sf_name r = nm) st.2)
    + sumZ (required_days <$> filter (λ p, name p = nm) ps).
Proof.
  revert st. induction ps as [|p ps IH]; intros st Hreq.
  - intros [= <-]. rewrite filter_nil. unfold sumZ. simpl. lia.
  - cbn [project_loop].
    destruct (process_project hol s st p) as [st1|] eqn:Hp;
      cbn [mbind result_bind]; [|done].
    intros Hloop. apply IH in Hloop; [|intros; apply Hreq; by right].
    rewrite Hloop. clear Hloop.
    apply process_project_Ok in Hp as (c & b & ds & cnt & _ & Ha & Hsf).
    pose proof (assign_days_size _ _ _ _ _ _ _ Ha) as [_ Hcnt].
    pose proof (assign_days_spec _ _ _ _ _ _ _ Ha) as (_ & Hcnt0 & _).
    apply (assign_days_dates_of _ _ _ _ _ _ _ nm) in Ha.
    pose proof (Hreq p ltac:(left)) as Hr.
    rewrite Ha, Hsf, filter_cons.
    destruct (Z.ltb_spec cnt (required_days p)).
    + rewrite filter_app, fmap_app, sumZ_app, filter_cons, filter_nil.
      cbn [sf_name].
      destruct (decide (name p = nm)) as [Hn|Hn].
      * rewrite fmap_cons, !sumZ_cons. unfold shortfall_gap at 2.
        cbn [sf_required_days assigned_days fmap list_fmap].
        unfold sumZ at 2. simpl. lia.
      * unfold sumZ at 2. simpl. lia.
    + destruct (decide (name p = nm)) as [Hn|Hn].
      * rewrite fmap_cons, sumZ_cons. lia.
      * lia.
Qed.

(** In a run of projects with non-negative requirements the books balance
    for every name: the requirements of the projects of that name are the
    number of dates the ledger gives to the name plus the gaps of its
    shortfall records. For a project with a name of its own, the ledger
    holds exactly [required_days] dates for it, less the gap of its
    record. *)
Theorem required_days_accounted_per_name (data : config)
    (ledger : gmap Z string) (shortfalls : list shortfall) (nm : string) :
  (∀ p, p ∈ projects data → 0 ≤ required_days p) →
  assign_project_dates data = Ok (ledger, shortfalls) →
  sumZ (required_days <$> filter (λ p, name p = nm) (projects data))
  = dates_of nm ledger
    + sumZ (shortfall_gap <$> filter (λ r, sf_name r = nm) shortfalls).
Proof.
  intros Hreq. unfold assign_project_dates.
  destruct (validate_priorities (projects data)) as [b|] eqn:Hv; simpl; [|done].
  destruct (sorted_by_priority (projects data)) as [sorted|] eqn:Hs;
    simpl; [|done].
  apply sorted_by_priority_perm in Hs.
  intros Hloop. apply (project_loop_account_name _ _ _ _ _ nm) in Hloop.
  - cbn [fst snd] in Hloop. rewrite filter_nil in Hloop.
    assert (H0 : dates_of nm ∅ = 0).
    { unfold dates_of. by rewrite map_filter_empty, map_size_empty. }
    rewrite H0 in Hloop.
    rewrite <- (sumZ_perm _ _ (fmap_Permutation required_days _ _
                  (filter_Permutation (λ p, name p = nm) _ _ Hs))).
    unfold sumZ in Hloop at 2. simpl in Hloop. lia.
  - intros p Hp. apply Hreq. by rewrite <- Hs.
Qed.

Lemma required_days_accounted_per_name_witness :
  sumZ (required_days
        <$> filter (λ p, name p = "B")
              [Project "B" (Some 2) 738886 738890 4;
               Project "A" (Some 1) 738888 738892 2])
  = dates_of "B"
      (<[738890 := "B"]> (<[738887 := "B"]> (<[738886 := "B"]>
         (<[738889 := "A"]> (<[738888 := "A"]> ∅)))))
    + sumZ (shortfall_gap
            <$> filter (λ r, sf_name r = "B") [Shortfall "B" 3 4]).
Proof.
  apply (required_days_accounted_per_name
           (Config [Project "B" (Some 2) 738886 738890 4;
                    Project "A" (Some 1) 738888 738892 2]
                   [] (Settings None None))).
  - intros p Hp. apply elem_of_cons in Hp as [-> | Hp]; [simpl; lia|].
    apply list_elem_of_singleton in Hp as ->. simpl. lia.
  - vm_compute. reflexivity.
Defined.

(** ** The last date of the calendar *)

(** On dates that [datetime] can hold the calculator raises
    [OverflowError] exactly for a window that is not empty and ends on
    9999-12-31: the loop then adds a day to the last date, whatever the
    requirement, the holidays and the settings. *)
Theorem overflow_at_last_date (start end_ r : Z) (hol : list Z)
    (s : settings) :
  valid_date start → valid_date end_ →
  calculate_working_days start end_ r hol s = Raise OverflowError
  ↔ start ≤ end_ ∧ end_ = datetime_max_ordinal.
Proof.
  intros Hs He. split.
  - intros Hc.
    apply calculate_Raise in Hc as [(Hd & _)|(_ & Hse & Hmax)]; done.
  - intros [Hse Hmax]. apply calculate_overflow.
    unfold window_ok, valid_date in *. lia.
Qed.

Lemma overflow_at_last_date_witness :
  calculate_working_days 3652059 3652059 1 [] (Settings None None)
  = Raise OverflowError.
Proof.
  apply (overflow_at_last_date 3652059 3652059 1 [] (Settings None None)).
  - unfold valid_date, max_window_days. lia.
  - unfold valid_date, max_window_days. lia.
  - split; [lia|reflexivity].
Defined.
